(** * popover-lite: placement selection and the reactive controller

    A shallow embedding of the two generations of popover-lite:
      - v0.1.2 ([V012], src/index.ts): the scoring engine [computeScores]
        and the selector [computeBest];
      - v0.2.0 ([V020], the "Pragmatic Edition"): [getAvailableSpace],
        [findBestPlacement] and the controller built by [createPopover].

    JavaScript numbers are modelled as exact rationals [Q]: every quantity
    the code reads (bounding boxes, viewport sizes, offsetWidth/Height,
    biases) is a finite, non-NaN number, and rounding is not modelled.
    Equality of numbers is therefore [Qeq], written [==]. The statements
    keep to the code's own expressions and to comparisons of the values it
    computes. *)

From Stdlib Require Import QArith Qminmax Lqa Lia Sorted.
From stdpp Require Import base option list gmap strings.

Open Scope Q_scope.

(** ** Numbers *)

(** [a >= b] on numbers. *)
Definition geq (a b : Q) : bool := Qle_bool b a.

(** [a > b] on numbers (on non-NaN numbers: not [a <= b]). *)
Definition gt (a b : Q) : bool := negb (Qle_bool a b).

(** [Math.max(a, b)]. *)
Definition Math_max (a b : Q) : Q := if Qle_bool a b then b else a.

(** [Math.abs(a)]. *)
Definition Math_abs (a : Q) : Q := if Qle_bool 0 a then a else - a.

(** ** The data model shared by both versions *)

(** [type Placement = "top" | "bottom" | "left" | "right"]. *)
Inductive Placement := Top | Bottom | Left | Right.

#[global] Instance Placement_eq_dec : EqDecision Placement.
Proof. solve_decision. Defined.

(** The four fields of a bounding box that the code reads directly, and the
    two derived ones ([bottom = top + height], [right = left + width], as a
    [DOMRect] with non-negative extent defines them). *)
Module DOMRect.
Record t := mk { top : Q; left : Q; width : Q; height : Q }.
Definition bottom (r : t) : Q := top r + height r.
Definition right (r : t) : Q := left r + width r.
End DOMRect.

(** [window.innerWidth], [window.innerHeight]. *)
Record Window := { innerWidth : Q; innerHeight : Q }.

(** What the code reads from and writes to an element. [ancestors] is the
    [parentElement] chain, nearest first; [scrollable] is the outcome of
    [/auto|scroll|overlay/.test(overflow + overflowX + overflowY)] on the
    element's computed style; [style_placement] is the custom property
    [--placement], [data_placement] the attribute written next to it
    ([dataset.placement] in v0.2.0, [dataset.side] in v0.1.2);
    [style_offset] is [--offset]. *)
Record HTMLElement := {
  getBoundingClientRect : DOMRect.t;
  offsetWidth : Q;
  offsetHeight : Q;
  ancestors : list nat;
  scrollable : bool;
  style_placement : option Placement;
  data_placement : option Placement;
  style_offset : option Q
}.

(** ** The page: live elements, event listeners, resize observers *)

(** The identity of a function object. *)
Definition Fn := nat.

(** An entry of an element's event listener list. Two listeners are the
    same when type, callback and capture agree ([passive] plays no part). *)
Record EventListener := {
  ev_type : string;
  callback : Fn;
  capture : bool;
  passive : bool
}.

Record ResizeObserver := {
  ro_callback : Fn;
  observationTargets : list nat
}.

(** Elements, listener lists and observers are objects with identity: they
    live in stores keyed by that identity. [fresh] is the next identity not
    yet given to any node, function or observer. *)
Record Page := {
  window : Window;
  documentElement : nat;
  body : nat;
  elements : gmap nat HTMLElement;
  listeners : gmap nat (list EventListener);
  observers : gmap nat ResizeObserver;
  fresh : nat
}.

Definition set_elements (f : gmap nat HTMLElement -> gmap nat HTMLElement)
    (pg : Page) : Page :=
  {| window := window pg; documentElement := documentElement pg;
     body := body pg; elements := f (elements pg);
     listeners := listeners pg; observers := observers pg;
     fresh := fresh pg |}.

Definition set_listeners
    (f : gmap nat (list EventListener) -> gmap nat (list EventListener))
    (pg : Page) : Page :=
  {| window := window pg; documentElement := documentElement pg;
     body := body pg; elements := elements pg;
     listeners := f (listeners pg); observers := observers pg;
     fresh := fresh pg |}.

Definition set_observers
    (f : gmap nat ResizeObserver -> gmap nat ResizeObserver)
    (pg : Page) : Page :=
  {| window := window pg; documentElement := documentElement pg;
     body := body pg; elements := elements pg;
     listeners := listeners pg; observers := f (observers pg);
     fresh := fresh pg |}.

(** Hands out [n] new identities. *)
Definition allocate (n : nat) (pg : Page) : Page :=
  {| window := window pg; documentElement := documentElement pg;
     body := body pg; elements := elements pg;
     listeners := listeners pg; observers := observers pg;
     fresh := (fresh pg + n)%nat |}.

Definition listenersOf (pg : Page) (target : nat) : list EventListener :=
  default [] (listeners pg !! target).

Definition sameListener (type : string) (cb : Fn) (cap : bool)
    (l : EventListener) : bool :=
  bool_decide (ev_type l = type) && bool_decide (callback l = cb)
  && bool_decide (capture l = cap).

(** [target.addEventListener(type, cb, { passive })]: appended unless the
    list already holds the same listener. *)
Definition addEventListener (type : string) (cb : Fn) (pass : bool)
    (pg : Page) (target : nat) : Page :=
  let ls := listenersOf pg target in
  if existsb (sameListener type cb false) ls then pg
  else
    let l := {| ev_type := type; callback := cb; capture := false;
                passive := pass |} in
    set_listeners (fun m => <[target := ls ++ [l]]> m) pg.

Fixpoint removeFirst {A} (f : A -> bool) (l : list A) : list A :=
  match l with
  | [] => []
  | x :: l' => if f x then l' else x :: removeFirst f l'
  end.

(** [target.removeEventListener(type, cb)]. *)
Definition removeEventListener (type : string) (cb : Fn)
    (pg : Page) (target : nat) : Page :=
  let ls := listenersOf pg target in
  set_listeners
    (fun m => <[target := removeFirst (sameListener type cb false) ls]> m) pg.

(** [observer.observe(target)]: an earlier observation of the same target
    is dropped, then the target is appended. *)
Definition observe (observer target : nat) (pg : Page) : Page :=
  set_observers
    (alter (fun ob =>
       {| ro_callback := ro_callback ob;
          observationTargets :=
            filter (fun t => t <> target) (observationTargets ob)
            ++ [target] |}) observer) pg.

(** [observer.disconnect()]. *)
Definition disconnect (observer : nat) (pg : Page) : Page :=
  set_observers
    (alter (fun ob =>
       {| ro_callback := ro_callback ob; observationTargets := [] |})
       observer) pg.

(** What the page may signal: a scroll event travelling along [path], or a
    size change of [target]. *)
Inductive Signal :=
| ScrollSignal (path : list nat)
| SizeChange (target : nat).

(** The callbacks a signal invokes, in order. *)
Definition invoked (pg : Page) (sig : Signal) : list Fn :=
  match sig with
  | ScrollSignal path =>
      concat (map (fun t =>
        map callback
          (filter (fun l => ev_type l = "scroll"%string) (listenersOf pg t)))
        path)
  | SizeChange target =>
      map (fun '(_, ob) => ro_callback ob)
        (filter (fun '(_, ob) => target ∈ observationTargets ob)
           (map_to_list (observers pg)))
  end.

(** [getScrollParents(el)]: the scrollable ancestors, nearest first, then
    the document element. *)
Definition getScrollParents (pg : Page) (el : nat) : list nat :=
  filter (fun p => from_option scrollable false (elements pg !! p) = true)
    (from_option ancestors [] (elements pg !! el))
  ++ [documentElement pg].

(** [Array.prototype.reduce] without an initial value: a [TypeError]
    ([None]) on the empty array, otherwise a left fold seeded with the first
    element. *)
Definition reduce {A} (f : A -> A -> A) (l : list A) : option A :=
  match l with
  | [] => None
  | x :: l' => Some (fold_left f l' x)
  end.

(** ** v0.2.0: first fit with fallbacks *)

Module V020.

Definition getAvailableSpace (w : Window) (anchor : HTMLElement)
    (placement : Placement) : Q :=
  let rect := getBoundingClientRect anchor in
  let vw := innerWidth w in
  let vh := innerHeight w in
  match placement with
  | Top => DOMRect.top rect
  | Bottom => vh - DOMRect.bottom rect
  | Left => DOMRect.left rect
  | Right => vw - DOMRect.right rect
  end.

(** [p === "top" || p === "bottom" ? needed.height : needed.width]. *)
Definition requiredFor (popover : HTMLElement) (p : Placement) : Q :=
  match p with
  | Top | Bottom => offsetHeight popover
  | Left | Right => offsetWidth popover
  end.

(** The [for ... of] loop over the fallbacks: [Some f] when the loop
    returns [f], [None] when it runs to its end. *)
Fixpoint tryFallbacks (w : Window) (anchor popover : HTMLElement)
    (fallbacks : list Placement) : option Placement :=
  match fallbacks with
  | [] => None
  | fallback :: rest =>
      let space := getAvailableSpace w anchor fallback in
      let required := requiredFor popover fallback in
      if geq space required then Some fallback
      else tryFallbacks w anchor popover rest
  end.

(** The callback of the final [reduce]. *)
Definition moreSpace (w : Window) (anchor : HTMLElement)
    (best current : Placement) : Placement :=
  let bestSpace := getAvailableSpace w anchor best in
  let currentSpace := getAvailableSpace w anchor current in
  if gt currentSpace bestSpace then current else best.

(** [findBestPlacement]; [None] would be an exception escaping it. *)
Definition findBestPlacement (w : Window) (anchor popover : HTMLElement)
    (preferred : Placement) (fallbacks : list Placement)
    : option Placement :=
  let preferredSpace := getAvailableSpace w anchor preferred in
  let requiredSpace := requiredFor popover preferred in
  if geq preferredSpace requiredSpace then Some preferred
  else
    match tryFallbacks w anchor popover fallbacks with
    | Some fallback => Some fallback
    | None =>
        let options := preferred :: fallbacks in
        reduce (moreSpace w anchor) options
    end.

(** *** The controller

    Of [createPopover], the defaults of the options, the creation of the
    panel, [update], [destroy] and the registrations with the page are
    modelled. An element as modelled here has no id: the one write to the
    anchor, [ensureAnchorId(anchor)], is modelled on the id alone (see
    [ensureAnchorId] below), and no statement about the page speaks of the
    anchor's attributes. The panel's [popover], [anchor], class and tab
    index attributes play no part; [show], [hide] and [toggle] reach the
    placement only through [update]. *)

Record PopoverOptions := {
  opt_placement : option Placement;
  opt_offset : option Q;
  opt_fallbacks : option (list Placement)
}.

(** The default of [fallbacks] when the option is omitted. *)
Definition defaultFallbacks (placement : Placement) : list Placement :=
  filter (fun p => p <> placement) [Top; Right; Left].

(** What the closures of one [createPopover] call share. [element] is
    the panel; [c_update] is the identity of the closure [update]. *)
Record PopoverController := {
  element : nat;
  c_anchor : nat;
  c_placement : Placement;
  c_fallbacks : list Placement;
  c_update : Fn;
  c_resizeObserver : nat;
  c_scrollParents : list nat
}.

(** The three writes to an element, on the element itself. *)
Definition withPlacement (placement : Placement) (e : HTMLElement)
    : HTMLElement :=
  {| getBoundingClientRect := getBoundingClientRect e;
     offsetWidth := offsetWidth e; offsetHeight := offsetHeight e;
     ancestors := ancestors e; scrollable := scrollable e;
     style_placement := Some placement;
     data_placement := Some placement;
     style_offset := style_offset e |}.

Definition withOffset (offset : Q) (e : HTMLElement) : HTMLElement :=
  {| getBoundingClientRect := getBoundingClientRect e;
     offsetWidth := offsetWidth e; offsetHeight := offsetHeight e;
     ancestors := ancestors e; scrollable := scrollable e;
     style_placement := style_placement e;
     data_placement := data_placement e;
     style_offset := Some offset |}.

Definition withAncestors (chain : list nat) (e : HTMLElement)
    : HTMLElement :=
  {| getBoundingClientRect := getBoundingClientRect e;
     offsetWidth := offsetWidth e; offsetHeight := offsetHeight e;
     ancestors := chain; scrollable := scrollable e;
     style_placement := style_placement e;
     data_placement := data_placement e;
     style_offset := style_offset e |}.

(** [setPlacement(el, placement)]: the custom property and the data
    attribute. *)
Definition setPlacement (el : nat) (placement : Placement) (pg : Page)
    : Page :=
  set_elements (alter (withPlacement placement) el) pg.

Definition setOffset (el : nat) (offset : Q) (pg : Page) : Page :=
  set_elements (alter (withOffset offset) el) pg.

(** [parent.appendChild(el)] and [el.remove()], as far as the
    [parentElement] chain of [el] goes. *)
Definition setAncestors (el : nat) (chain : list nat) (pg : Page) : Page :=
  set_elements (alter (withAncestors chain) el) pg.

Definition appendChild (parent el : nat) (pg : Page) : Page :=
  setAncestors el
    (parent :: from_option ancestors [] (elements pg !! parent)) pg.

Definition remove (el : nat) (pg : Page) : Page := setAncestors el [] pg.

(** [document.createElement("div")]: a detached element without layout;
    its identity is [fresh pg]. *)
Definition createElement (pg : Page) : Page :=
  let e := {| getBoundingClientRect := DOMRect.mk 0 0 0 0;
              offsetWidth := 0; offsetHeight := 0;
              ancestors := []; scrollable := false;
              style_placement := None; data_placement := None;
              style_offset := None |} in
  allocate 1 (set_elements (fun m => <[fresh pg := e]> m) pg).

(** [update()]: both elements are read afresh from the page, and the
    Side that [findBestPlacement] returns is written to the panel. *)
Definition update (c : PopoverController) (pg : Page) : Page :=
  match elements pg !! c_anchor c, elements pg !! element c with
  | Some anchor, Some popover =>
      match findBestPlacement (window pg) anchor popover
              (c_placement c) (c_fallbacks c) with
      | Some best => setPlacement (element c) best pg
      | None => pg
      end
  | _, _ => pg
  end.

(** [destroy()]. *)
Definition destroy (c : PopoverController) (pg : Page) : Page :=
  let pg := disconnect (c_resizeObserver c) pg in
  let pg :=
    fold_left (removeEventListener "scroll" (c_update c))
      (c_scrollParents c) pg in
  remove (element c) pg.

(** [createPopover(anchor, opts)]: the controller and the page it leaves.
    The closure [update] and the observer are new objects. *)
Definition createPopover (anchor : nat) (opts : PopoverOptions) (pg : Page)
    : PopoverController * Page :=
  let placement := default Bottom (opt_placement opts) in
  let offset := default 8 (opt_offset opts) in
  let fallbacks :=
    default (defaultFallbacks placement) (opt_fallbacks opts) in
  let popover := fresh pg in
  let pg := createElement pg in
  let pg := setOffset popover offset pg in
  let pg := setPlacement popover placement pg in
  let pg := appendChild (body pg) popover pg in
  let update := fresh pg in
  let pg := allocate 1 pg in
  let resizeObserver := fresh pg in
  let pg :=
    allocate 1
      (set_observers
         (fun m => <[resizeObserver :=
            {| ro_callback := update; observationTargets := [] |}]> m)
         pg) in
  let pg := observe resizeObserver anchor pg in
  let pg := observe resizeObserver popover pg in
  let scrollParents := getScrollParents pg anchor in
  let pg :=
    fold_left (addEventListener "scroll" update true) scrollParents pg in
  ({| element := popover; c_anchor := anchor; c_placement := placement;
      c_fallbacks := fallbacks; c_update := update;
      c_resizeObserver := resizeObserver;
      c_scrollParents := scrollParents |}, pg).

(** Running a callback: the controller's own [update] is executed, any
    other function belongs to code outside the library. *)
Definition call (c : PopoverController) (pg : Page) (fn : Fn) : Page :=
  if decide (fn = c_update c) then update c pg else pg.

(** The page after a signal has run all the callbacks it invokes. *)
Definition signal (c : PopoverController) (pg : Page) (sig : Signal)
    : Page :=
  fold_left (call c) (invoked pg sig) pg.

End V020.

(** ** v0.1.2: the scoring engine *)

#[global] Instance Placement_countable : Countable Placement.
Proof.
  refine (inj_countable'
    (fun p => match p with Top => 0 | Bottom => 1 | Left => 2 | Right => 3 end)%nat
    (fun n => match n with
              | 0 => Top | 1 => Bottom | 2 => Left | _ => Right end)%nat _).
  intros []; reflexivity.
Defined.

(** [Array.prototype.sort(cmp)], which is stable: [insert] moves [x],
    which stood before every element of the sorted [l], past the leading
    elements [y] with [cmp(x, y) > 0] and no further. *)
Fixpoint insert {A} (cmp : A -> A -> Q) (x : A) (l : list A) : list A :=
  match l with
  | [] => [x]
  | y :: l' => if gt (cmp x y) 0 then y :: insert cmp x l' else x :: l
  end.

Definition sort {A} (cmp : A -> A -> Q) (l : list A) : list A :=
  foldr (insert cmp) [] l.

Module V012.

Record PlacementScore := {
  placement : Placement;
  space : Q;
  overflow : Q;
  misalign : Q;
  preference : Q;
  score : Q
}.

Record Size := { width : Q; height : Q }.

(** [prefs.side ?? 0]. *)
Definition bias (prefs : gmap Placement Q) (p : Placement) : Q :=
  default 0 (prefs !! p).

(** The object literal [candidates], one entry per Side, [score: 0]. *)
Definition candidate (w : Window) (anchor : HTMLElement) (size : Size)
    (prefs : gmap Placement Q) (p : Placement) : PlacementScore :=
  let r := getBoundingClientRect anchor in
  let vw := innerWidth w in
  let vh := innerHeight w in
  match p with
  | Top =>
      {| placement := Top;
         space := DOMRect.top r;
         overflow := Math_max (height size - DOMRect.top r) 0;
         misalign := Math_abs (DOMRect.left r + DOMRect.width r / 2
                               - (DOMRect.left r + width size / 2));
         preference := bias prefs Top;
         score := 0 |}
  | Bottom =>
      {| placement := Bottom;
         space := vh - DOMRect.bottom r;
         overflow := Math_max (height size - (vh - DOMRect.bottom r)) 0;
         misalign := Math_abs (DOMRect.left r + DOMRect.width r / 2
                               - (DOMRect.left r + width size / 2));
         preference := bias prefs Bottom;
         score := 0 |}
  | Left =>
      {| placement := Left;
         space := DOMRect.left r;
         overflow := Math_max (width size - DOMRect.left r) 0;
         misalign := Math_abs (DOMRect.top r + DOMRect.height r / 2
                               - (DOMRect.top r + height size / 2));
         preference := bias prefs Left;
         score := 0 |}
  | Right =>
      {| placement := Right;
         space := vw - DOMRect.right r;
         overflow := Math_max (width size - (vw - DOMRect.right r)) 0;
         misalign := Math_abs (DOMRect.top r + DOMRect.height r / 2
                               - (DOMRect.top r + height size / 2));
         preference := bias prefs Right;
         score := 0 |}
  end.

(** [Object.values(candidates)]: the keys in insertion order. *)
Definition candidates (w : Window) (anchor : HTMLElement) (size : Size)
    (prefs : gmap Placement Q) : list PlacementScore :=
  map (candidate w anchor size prefs) [Top; Bottom; Left; Right].

Definition set_score (s : PlacementScore) (v : Q) : PlacementScore :=
  {| placement := placement s; space := space s; overflow := overflow s;
     misalign := misalign s; preference := preference s; score := v |}.

(** The body of the scoring loop. *)
Definition rate (s : PlacementScore) : PlacementScore :=
  set_score s (space s - overflow s - misalign s + preference s).

(** The comparator [(a, b) => b.score - a.score]. *)
Definition byScoreDesc (a b : PlacementScore) : Q := score b - score a.

Definition computeScores (w : Window) (anchor : HTMLElement) (size : Size)
    (prefs : gmap Placement Q) : list PlacementScore :=
  sort byScoreDesc (map rate (candidates w anchor size prefs)).

(** [placement?: Placement | Placement[]]. *)
Inductive PlacementOption := One (p : Placement) | Many (ps : list Placement).

(** [const s = scores.find(x => x.placement === p); if (s) s.score += bonus]:
    the first matching entry is updated where it stands. *)
Fixpoint addBonus (p : Placement) (bonus : Q) (scores : list PlacementScore)
    : list PlacementScore :=
  match scores with
  | [] => []
  | x :: rest =>
      if decide (placement x = p) then set_score x (score x + bonus) :: rest
      else x :: addBonus p bonus rest
  end.

(** The [for] loop of [computeBest] from index [i] on; [rest] is
    [order[i..]] and [len] is [order.length]. *)
Fixpoint bonusLoop (len i : nat) (rest : list Placement)
    (scores : list PlacementScore) : list PlacementScore :=
  match rest with
  | [] => scores
  | p :: rest' =>
      let bonus := inject_Z (Z.of_nat len - Z.of_nat i) * 10000 in
      bonusLoop len (S i) rest' (addBonus p bonus scores)
  end.

Definition order_of (placement : PlacementOption) : list Placement :=
  match placement with One p => [p] | Many ps => ps end.

(** The entries as they stand when [computeBest] returns. *)
Definition finalScores (w : Window) (anchor pop : HTMLElement)
    (placement : PlacementOption) (preference : gmap Placement Q)
    : list PlacementScore :=
  let order := order_of placement in
  let size := {| width := offsetWidth pop; height := offsetHeight pop |} in
  let scores := computeScores w anchor size preference in
  bonusLoop (length order) 0 order scores.

(** [computeBest]; [None] would be the [TypeError] of reading
    [.placement] of an absent [scores[0]]. *)
Definition computeBest (w : Window) (anchor pop : HTMLElement)
    (placement : PlacementOption) (preference : gmap Placement Q)
    : option Placement :=
  match finalScores w anchor pop placement preference !! 0%nat with
  | Some s => Some (V012.placement s)
  | None => None
  end.

End V012.

(** ** Vocabulary of the statements *)

(** [s] stands at index [i] of [l], no element of [l] has more available
    space, and every element before index [i] has strictly less. *)
Definition firstMax (w : Window) (anchor : HTMLElement)
    (l : list Placement) (i : nat) (s : Placement) : Prop :=
  let avail := V020.getAvailableSpace w anchor in
  l !! i = Some s
  /\ (forall o, o ∈ l -> avail o <= avail s)
  /\ (forall j o, (j < i)%nat -> l !! j = Some o -> avail o < avail s).

(** [f] is the first element of [l] whose available space is at least the
    space it requires. *)
Definition firstFit (w : Window) (anchor popover : HTMLElement)
    (l : list Placement) (f : Placement) : Prop :=
  let avail := V020.getAvailableSpace w anchor in
  let required := V020.requiredFor popover in
  exists pre post,
    l = pre ++ f :: post
    /\ required f <= avail f
    /\ (forall o, o ∈ pre -> avail o < required o).

(** The position of a Side in [Object.values(candidates)]. *)
Definition enumIndex (p : Placement) : nat :=
  match p with Top => 0 | Bottom => 1 | Left => 2 | Right => 3 end.

(** The entry of Side [p] as the scoring loop of [computeScores] leaves
    it. *)
Definition scored (w : Window) (anchor : HTMLElement) (size : V012.Size)
    (prefs : gmap Placement Q) (p : Placement) : V012.PlacementScore :=
  V012.rate (V012.candidate w anchor size prefs p).

(** The footprint dimension a Side needs: the height for top and bottom,
    the width for left and right. *)
Definition dimension (size : V012.Size) (p : Placement) : Q :=
  match p with
  | Top | Bottom => V012.height size
  | Left | Right => V012.width size
  end.

(** The two coordinates whose distance is the misalignment of Side [p]:
    the anchor's centre on the axis across the Side, [r.left + r.width / 2]
    for top and bottom and [r.top + r.height / 2] for left and right, and
    what it is compared with, [r.left + size.width / 2] and
    [r.top + size.height / 2]: the centre of a panel that starts where the
    anchor starts. *)
Definition anchorCentre (anchor : HTMLElement) (p : Placement) : Q :=
  let r := getBoundingClientRect anchor in
  match p with
  | Top | Bottom => DOMRect.left r + DOMRect.width r / 2
  | Left | Right => DOMRect.top r + DOMRect.height r / 2
  end.

Definition comparedCentre (anchor : HTMLElement) (size : V012.Size)
    (p : Placement) : Q :=
  let r := getBoundingClientRect anchor in
  match p with
  | Top | Bottom => DOMRect.left r + V012.width size / 2
  | Left | Right => DOMRect.top r + V012.height size / 2
  end.

(** The anchor's extent minus the panel's, on the axis across Side [p]. *)
Definition crossGap (anchor : HTMLElement) (size : V012.Size)
    (p : Placement) : Q :=
  let r := getBoundingClientRect anchor in
  match p with
  | Top | Bottom => DOMRect.width r - V012.width size
  | Left | Right => DOMRect.height r - V012.height size
  end.

(** [a] ranks before [b]: a higher score, or the same score and an earlier
    place in the enumeration of the Sides. *)
Definition ranksBefore (a b : V012.PlacementScore) : Prop :=
  V012.score b < V012.score a
  \/ (V012.score a == V012.score b
      /\ (enumIndex (V012.placement a) < enumIndex (V012.placement b))%nat).

(** Every function and observer the page knows is older than [fresh]. *)
Definition wellFormed (pg : Page) : Prop :=
  (forall t l, l ∈ listenersOf pg t -> (callback l < fresh pg)%nat)
  /\ (forall o ob, observers pg !! o = Some ob ->
                   (o < fresh pg)%nat /\ (ro_callback ob < fresh pg)%nat).

(** No element holds a listener whose callback is [fn], and an observer
    whose callback is [fn] observes nothing. *)
Definition released (fn : Fn) (pg : Page) : Prop :=
  (forall t l, l ∈ listenersOf pg t -> callback l <> fn)
  /\ (forall o ob, observers pg !! o = Some ob ->
                   ro_callback ob = fn -> observationTargets ob = []).

(** Element [t] holds no listener whose callback is [fn]. *)
Definition clean (fn : Fn) (pg : Page) (t : nat) : Prop :=
  forall l, l ∈ listenersOf pg t -> callback l <> fn.

(** Element [t] holds at most one listener whose callback is [fn], and
    that one is the scroll listener the controller registers. *)
Definition tidy (fn : Fn) (pg : Page) (t : nat) : Prop :=
  (length (filter (fun l => callback l = fn) (listenersOf pg t)) <= 1)%nat
  /\ (forall l, l ∈ listenersOf pg t -> callback l = fn ->
                sameListener "scroll" fn false l = true).

(** ** Concrete pages used in the examples *)

Definition mkElement (r : DOMRect.t) (w h : Q) (chain : list nat)
    (scroll : bool) : HTMLElement :=
  {| getBoundingClientRect := r; offsetWidth := w; offsetHeight := h;
     ancestors := chain; scrollable := scroll;
     style_placement := None; data_placement := None;
     style_offset := None |}.

(** An 800 x 600 viewport. *)
Definition win800x600 : Window := {| innerWidth := 800; innerHeight := 600 |}.

(** The anchor [{top: 500, left: 100, width: 50, height: 20}]. *)
Definition anchor500 : HTMLElement :=
  mkElement (DOMRect.mk 500 100 50 20) 50 20 [2; 1; 0]%nat false.

(** Panels of 120 x 40 and of 120 x 150. *)
Definition panel120x40 : HTMLElement :=
  mkElement (DOMRect.mk 0 0 120 40) 120 40 [1; 0]%nat false.

Definition panel120x150 : HTMLElement :=
  mkElement (DOMRect.mk 0 0 120 150) 120 150 [1; 0]%nat false.

(** A page: the document element 0, the body 1, a scrollable container 2
    and the anchor 3 inside it; one foreign scroll listener on the
    container. *)
Definition page0 : Page :=
  {| window := win800x600;
     documentElement := 0%nat;
     body := 1%nat;
     elements :=
       {[ 0%nat := mkElement (DOMRect.mk 0 0 800 600) 800 600 [] false;
          1%nat := mkElement (DOMRect.mk 0 0 800 600) 800 600 [0%nat] false;
          2%nat := mkElement (DOMRect.mk 0 0 800 600) 800 600 [1; 0]%nat true;
          3%nat := anchor500 ]};
     listeners :=
       {[ 2%nat := [ {| ev_type := "scroll"; callback := 4%nat;
                        capture := false; passive := false |} ] ]};
     observers := ∅;
     fresh := 5%nat |}.

Definition noOptions : V020.PopoverOptions :=
  {| V020.opt_placement := None; V020.opt_offset := None;
     V020.opt_fallbacks := None |}.

(** The controller that [createPopover(anchor)] builds on [page0] for the
    anchor 3 with no options, and the page it leaves. *)
Definition controller0 : V020.PopoverController :=
  (V020.createPopover 3 noOptions page0).1.

Definition page1 : Page := (V020.createPopover 3 noOptions page0).2.

(** ** The rest of the code *)

(** [l] without its repetitions: every element at its first occurrence. *)
Fixpoint nub (l : list Placement) : list Placement :=
  match l with
  | [] => []
  | x :: l' => x :: filter (fun y => y <> x) (nub l')
  end.

(** The listener that [addEventListener("scroll", fn, { passive: true })]
    appends. *)
Definition scrollListener (fn : Fn) : EventListener :=
  {| ev_type := "scroll"; callback := fn; capture := false;
     passive := true |}.

(** [ensureAnchorId(anchor)] of v0.2.0, on the one attribute it touches:
    [id] is [anchor.id] before the call ([""] when the anchor has none) and
    [uuid] is what [crypto.randomUUID()] would return; the result is
    [anchor.id] after the call, paired with the value returned. *)
Definition ensureAnchorId (id uuid : string) : string * string :=
  let id' :=
    if bool_decide (id = ""%string)
    then ("popover-anchor-" +:+ uuid)%string else id in
  (id', id').

(** *** v0.1.2: the controller

    Of [createPopover] in src/index.ts: the defaults of [placement] and
    [preference], the creation of the panel, the first write of the
    placement, [update], [destroy] and the registrations with the page.
    [applyOffsetVars] writes the custom properties [--gap], [--offset-x] and
    [--offset-y], which nothing here reads. *)

Module V012Controller.

Record PopoverOptions := {
  opt_placement : option V012.PlacementOption;
  opt_preference : option (gmap Placement Q)
}.

(** What the closures of one [createPopover] call share. [c_update] is
    the closure [update], [c_onResize] the arrow function [() => update()]
    given to the resize observer [c_ro]. *)
Record PopoverController := {
  element : nat;
  c_anchor : nat;
  c_placement : V012.PlacementOption;
  c_preference : gmap Placement Q;
  c_update : Fn;
  c_onResize : Fn;
  c_ro : nat;
  c_scrollParents : list nat
}.

(** [setPlacementVar(el, p)]: [--placement] and [dataset.side]. *)
Definition setPlacementVar (el : nat) (p : Placement) (pg : Page) : Page :=
  set_elements (alter (V020.withPlacement p) el) pg.

(** [update()]: [setPlacementVar(pop, computeBest())]. *)
Definition update (c : PopoverController) (pg : Page) : Page :=
  match elements pg !! c_anchor c, elements pg !! element c with
  | Some anchor, Some pop =>
      match V012.computeBest (window pg) anchor pop
              (c_placement c) (c_preference c) with
      | Some best => setPlacementVar (element c) best pg
      | None => pg
      end
  | _, _ => pg
  end.

(** [destroy()]. *)
Definition destroy (c : PopoverController) (pg : Page) : Page :=
  let pg := disconnect (c_ro c) pg in
  let pg :=
    fold_left (removeEventListener "scroll" (c_update c))
      (c_scrollParents c) pg in
  V020.remove (element c) pg.

(** [createPopover(anchor, opts)]. The first write of the placement is
    [placement[0]] for an array; for the empty array that is no Side, and
    the panel records none. *)
Definition createPopover (anchor : nat) (opts : PopoverOptions) (pg : Page)
    : PopoverController * Page :=
  let placement := default (V012.One Bottom) (opt_placement opts) in
  let preference := default ∅ (opt_preference opts) in
  let pop := fresh pg in
  let pg := V020.createElement pg in
  let pg :=
    match placement with
    | V012.One p => setPlacementVar pop p pg
    | V012.Many (p :: _) => setPlacementVar pop p pg
    | V012.Many [] => pg
    end in
  let pg := V020.appendChild (body pg) pop pg in
  let update := fresh pg in
  let pg := allocate 1 pg in
  let onResize := fresh pg in
  let pg := allocate 1 pg in
  let ro := fresh pg in
  let pg :=
    allocate 1
      (set_observers
         (fun m => <[ro :=
            {| ro_callback := onResize; observationTargets := [] |}]> m)
         pg) in
  let pg := observe ro anchor pg in
  let scrollParents := getScrollParents pg anchor in
  let pg :=
    fold_left (addEventListener "scroll" update true) scrollParents pg in
  ({| element := pop; c_anchor := anchor; c_placement := placement;
      c_preference := preference; c_update := update;
      c_onResize := onResize; c_ro := ro;
      c_scrollParents := scrollParents |}, pg).

(** Running a callback: [update] itself, or the arrow function that calls
    it; any other function belongs to code outside the library. *)
Definition call (c : PopoverController) (pg : Page) (fn : Fn) : Page :=
  if decide (fn = c_update c) then update c pg
  else if decide (fn = c_onResize c) then update c pg
  else pg.

Definition signal (c : PopoverController) (pg : Page) (sig : Signal)
    : Page :=
  fold_left (call c) (invoked pg sig) pg.

End V012Controller.

(** The v0.1.2 controller that [createPopover(anchor, { placement: "bottom"
    })] builds on [page0], and the page it leaves. *)
Definition bottomOnly : V012Controller.PopoverOptions :=
  {| V012Controller.opt_placement := Some (V012.One Bottom);
     V012Controller.opt_preference := None |}.

Definition controller012 : V012Controller.PopoverController :=
  (V012Controller.createPopover 3 bottomOnly page0).1.

Definition page012 : Page :=
  (V012Controller.createPopover 3 bottomOnly page0).2.

(** What [createPopover] of v0.2.0, called for [anchor] on the page [pg],
    leaves: the controller [c] and the page [created], listener list by
    listener list, observer by observer, element by element. *)
Definition createdBy (pg : Page) (anchor : nat)
    (c : V020.PopoverController) (created : Page) : Prop :=
  V020.c_anchor c = anchor
  /\ V020.element c = fresh pg
  /\ (forall t, clean (V020.c_update c) pg t)
  /\ (forall o ob, observers pg !! o = Some ob ->
                   o <> V020.c_resizeObserver c
                   /\ ro_callback ob <> V020.c_update c)
  /\ (exists front, V020.c_scrollParents c = front ++ [documentElement pg])
  /\ (forall t,
        listenersOf created t
        = if bool_decide (t ∈ V020.c_scrollParents c)
          then listenersOf pg t ++ [scrollListener (V020.c_update c)]
          else listenersOf pg t)
  /\ (forall o, o <> V020.c_resizeObserver c ->
                observers created !! o = observers pg !! o)
  /\ observers created !! V020.c_resizeObserver c
     = Some {| ro_callback := V020.c_update c;
               observationTargets :=
                 filter (fun t => t <> fresh pg) [anchor] ++ [fresh pg] |}
  /\ (forall k, k <> fresh pg -> elements created !! k = elements pg !! k)
  /\ window created = window pg.

(** * Properties *)

(** ** Numbers *)

(** Linear arithmetic with halves: [x / 2] is read as [x * (1 # 2)]. *)
Ltac lra_halves :=
  unfold Qdiv in *; change (/ 2) with (1 # 2) in *; lra.

Lemma geq_spec (a b : Q) : geq a b = true <-> b <= a.
Proof. unfold geq. apply Qle_bool_iff. Qed.

Lemma geq_false (a b : Q) : geq a b = false <-> a < b.
Proof.
  rewrite <- not_true_iff_false, geq_spec. split.
  - apply Qnot_le_lt.
  - apply Qlt_not_le.
Qed.

Lemma gt_spec (a b : Q) : gt a b = true <-> b < a.
Proof.
  unfold gt. rewrite negb_true_iff, <- not_true_iff_false, Qle_bool_iff.
  split.
  - apply Qnot_le_lt.
  - apply Qlt_not_le.
Qed.

Lemma gt_false (a b : Q) : gt a b = false <-> a <= b.
Proof. unfold gt. rewrite negb_false_iff. apply Qle_bool_iff. Qed.

Lemma Math_max_spec (a b : Q) :
  (a <= b /\ Math_max a b = b) \/ (b < a /\ Math_max a b = a).
Proof.
  unfold Math_max. destruct (Qle_bool a b) eqn:E.
  - left. split; [now apply Qle_bool_iff | reflexivity].
  - right. split; [|reflexivity].
    apply Qnot_le_lt. intros H. apply Qle_bool_iff in H. congruence.
Qed.

Lemma Math_abs_spec (a : Q) :
  (0 <= a /\ Math_abs a = a) \/ (a < 0 /\ Math_abs a = - a).
Proof.
  unfold Math_abs. destruct (Qle_bool 0 a) eqn:E.
  - left. split; [now apply Qle_bool_iff | reflexivity].
  - right. split; [|reflexivity].
    apply Qnot_le_lt. intros H. apply Qle_bool_iff in H. congruence.
Qed.

(** ** v0.2.0: the selector *)

Section PolicyA.

Variables (w : Window) (anchor popover : HTMLElement).

Let avail := V020.getAvailableSpace w anchor.
Let required := V020.requiredFor popover.
Let firstFit := firstFit w anchor popover.
Let firstMax := firstMax w anchor.

Lemma tryFallbacks_Some (l : list Placement) (f : Placement) :
  V020.tryFallbacks w anchor popover l = Some f <-> firstFit l f.
Proof.
  induction l as [|x l IH]; simpl.
  - split; [discriminate|]. intros (pre & post & E & _).
    destruct pre; discriminate.
  - destruct (geq _ _) eqn:G.
    + apply geq_spec in G. split.
      * intros [= <-]. exists [], l. repeat split; [assumption|].
        intros o Ho. inversion Ho.
      * intros (pre & post & E & Hf & Hpre). destruct pre as [|y pre].
        -- simpl in E. congruence.
        -- injection E as <- _. exfalso.
           apply (Qlt_not_le _ _ (Hpre x ltac:(left)) G).
    + apply geq_false in G. rewrite IH. split.
      * intros (pre & post & -> & Hf & Hpre).
        exists (x :: pre), post. repeat split; [assumption|].
        intros o Ho. apply elem_of_cons in Ho as [->|Ho]; auto.
      * intros (pre & post & E & Hf & Hpre). destruct pre as [|y pre].
        -- simpl in E. injection E as -> _. exfalso.
           apply (Qlt_not_le _ _ G Hf).
        -- injection E as <- ->. exists pre, post.
           repeat split; [assumption|].
           intros o Ho. apply Hpre. now right.
  Qed.

Lemma tryFallbacks_None (l : list Placement) :
  V020.tryFallbacks w anchor popover l = None <->
  (forall o, o ∈ l -> avail o < required o).
Proof.
  induction l as [|x l IH]; simpl.
  - split; [|reflexivity]. intros _ o Ho. inversion Ho.
  - destruct (geq _ _) eqn:G.
    + apply geq_spec in G. split; [discriminate|].
      intros H. exfalso. apply (Qlt_not_le _ _ (H x ltac:(left)) G).
    + apply geq_false in G. rewrite IH. split.
      * intros H o Ho. apply elem_of_cons in Ho as [->|Ho]; auto.
      * intros H o Ho. apply H. now right.
Qed.

(** The final [reduce] keeps the first of the options with the most
    space. *)
Lemma reduce_moreSpace (b : Placement) (l : list Placement) :
  exists i, firstMax (b :: l) i (fold_left (V020.moreSpace w anchor) l b).
Proof.
  induction l as [|x l IH] using rev_ind.
  - exists 0%nat. repeat split.
    + intros o Ho. apply list_elem_of_singleton in Ho as ->. apply Qle_refl.
    + intros j o Hj. lia.
  - destruct IH as (i & Hi & Hmax & Hbefore).
    rewrite fold_left_app. simpl.
    set (r := fold_left (V020.moreSpace w anchor) l b) in *.
    unfold V020.moreSpace. fold avail.
    destruct (gt (avail x) (avail r)) eqn:G.
    + apply gt_spec in G. exists (length (b :: l)). repeat split.
      * change (b :: l ++ [x]) with ((b :: l) ++ [x]).
        rewrite lookup_app_r by lia. now rewrite Nat.sub_diag.
      * intros o Ho. change (b :: l ++ [x]) with ((b :: l) ++ [x]) in Ho.
        apply elem_of_app in Ho as [Ho|Ho].
        -- apply Qlt_le_weak. eapply Qle_lt_trans; [apply Hmax, Ho|exact G].
        -- apply list_elem_of_singleton in Ho as ->. apply Qle_refl.
      * intros j o Hj Ho.
        change (b :: l ++ [x]) with ((b :: l) ++ [x]) in Ho.
        rewrite lookup_app_l in Ho by exact Hj.
        eapply Qle_lt_trans; [|exact G].
        apply Hmax. eapply list_elem_of_lookup_2, Ho.
    + apply gt_false in G. exists i.
      assert (Hlt : (i < length (b :: l))%nat)
        by (eapply lookup_lt_Some, Hi).
      repeat split.
      * change (b :: l ++ [x]) with ((b :: l) ++ [x]).
        rewrite lookup_app_l by exact Hlt. exact Hi.
      * intros o Ho. change (b :: l ++ [x]) with ((b :: l) ++ [x]) in Ho.
        apply elem_of_app in Ho as [Ho|Ho]; [now apply Hmax|].
        apply list_elem_of_singleton in Ho as ->. exact G.
      * intros j o Hj Ho.
        change (b :: l ++ [x]) with ((b :: l) ++ [x]) in Ho.
        rewrite lookup_app_l in Ho by lia.
        eapply Hbefore; eassumption.
Qed.

End PolicyA.

Lemma findBestPlacement_total w anchor popover preferred fallbacks :
  exists s,
    V020.findBestPlacement w anchor popover preferred fallbacks = Some s.
Proof.
  unfold V020.findBestPlacement.
  destruct (geq _ _); [eauto|].
  destruct (V020.tryFallbacks _ _ _ _); [eauto|].
  simpl. eauto.
Qed.

Lemma findBestPlacement_elem w anchor popover preferred fallbacks s :
  V020.findBestPlacement w anchor popover preferred fallbacks = Some s ->
  s ∈ preferred :: fallbacks.
Proof.
  unfold V020.findBestPlacement.
  destruct (geq _ _).
  - intros [= <-]. left.
  - destruct (V020.tryFallbacks _ _ _ _) as [f|] eqn:T.
    + intros [= <-]. right.
      apply tryFallbacks_Some in T as (pre & post & -> & _).
      apply elem_of_app. right. left.
    + simpl. intros [= <-].
      destruct (reduce_moreSpace w anchor preferred fallbacks)
        as (i & Hi & _).
      eapply list_elem_of_lookup_2, Hi.
Qed.

(** C2. Policy A ([findBestPlacement] of v0.2.0). The space a Side requires
    is the panel's height for top and bottom and its width for left and
    right. If the preferred Side has at least the space it requires, it is
    the result; otherwise the result is the first fallback that has at least
    the space it requires; and when neither the preferred Side nor any
    fallback fits, the result is the Side of the sequence "preferred, then
    fallbacks" with the greatest available space, the earliest such Side
    when several tie. *)
Theorem findBestPlacement_first_fit
    (w : Window) (anchor popover : HTMLElement)
    (preferred : Placement) (fallbacks : list Placement) :
  let avail := V020.getAvailableSpace w anchor in
  let required := V020.requiredFor popover in
  let result := V020.findBestPlacement w anchor popover preferred fallbacks in
  (forall p, required p =
     match p with
     | Top | Bottom => offsetHeight popover
     | Left | Right => offsetWidth popover
     end)
  /\ (required preferred <= avail preferred -> result = Some preferred)
  /\ (avail preferred < required preferred ->
      forall f, firstFit w anchor popover fallbacks f -> result = Some f)
  /\ (avail preferred < required preferred ->
      (forall o, o ∈ fallbacks -> avail o < required o) ->
      exists i s, result = Some s
                  /\ firstMax w anchor (preferred :: fallbacks) i s).
Proof.
  intros avail required result. subst result.
  unfold V020.findBestPlacement. fold avail required.
  split; [intros []; reflexivity|].
  split; [|split].
  - intros H. apply geq_spec in H. now rewrite H.
  - intros H f Hf. apply geq_false in H. rewrite H.
    apply tryFallbacks_Some in Hf. now rewrite Hf.
  - intros H Hnone. apply geq_false in H. rewrite H.
    apply tryFallbacks_None in Hnone. rewrite Hnone. simpl.
    destruct (reduce_moreSpace w anchor preferred fallbacks) as (i & Hi).
    eauto.
Qed.

(** The three branches of C2 at concrete inputs: the preferred Side fits;
    only the fallback [Right] fits; nothing fits and [Top] and [Left] tie
    for the most space, [Top] standing first. *)
Lemma findBestPlacement_first_fit_witness :
  V020.findBestPlacement win800x600 anchor500 panel120x40
    Bottom [Top; Right; Left] = Some Bottom
  /\ V020.findBestPlacement win800x600 anchor500
       (mkElement (DOMRect.mk 0 0 600 600) 600 600 [] false)
       Bottom [Top; Right; Left] = Some Right
  /\ exists i s,
       V020.findBestPlacement win800x600
         (mkElement (DOMRect.mk 300 300 200 20) 200 20 [] false)
         (mkElement (DOMRect.mk 0 0 900 900) 900 900 [] false)
         Bottom [Top; Left; Right] = Some s
       /\ firstMax win800x600
            (mkElement (DOMRect.mk 300 300 200 20) 200 20 [] false)
            [Bottom; Top; Left; Right] i s.
Proof.
  split; [|split].
  - destruct (findBestPlacement_first_fit win800x600 anchor500 panel120x40
                Bottom [Top; Right; Left]) as (_ & Hfit & _).
    apply Hfit. vm_compute. discriminate.
  - destruct (findBestPlacement_first_fit win800x600 anchor500
                (mkElement (DOMRect.mk 0 0 600 600) 600 600 [] false)
                Bottom [Top; Right; Left]) as (_ & _ & Hscan & _).
    apply Hscan.
    + vm_compute. reflexivity.
    + exists [Top], [Left]. split; [reflexivity|]. split.
      * vm_compute. discriminate.
      * intros o Ho. apply list_elem_of_singleton in Ho as ->.
        vm_compute. reflexivity.
  - destruct (findBestPlacement_first_fit win800x600
                (mkElement (DOMRect.mk 300 300 200 20) 200 20 [] false)
                (mkElement (DOMRect.mk 0 0 900 900) 900 900 [] false)
                Bottom [Top; Left; Right]) as (_ & _ & _ & Hmost).
    apply Hmost.
    + vm_compute. reflexivity.
    + intros o Ho.
      repeat (apply elem_of_cons in Ho as [->|Ho]; [vm_compute; reflexivity|]).
      inversion Ho.
Defined.

(** C6. The geometry sampler [getAvailableSpace]: the anchor's top offset
    for top, the viewport height minus the anchor's bottom offset for
    bottom, the anchor's left offset for left, the viewport width minus the
    anchor's right offset for right; the scoring engine of v0.1.2 records
    the same quantity as [space]. The function is total and nothing is
    clamped: a negative distance is returned as it is. *)
Theorem getAvailableSpace_sides (w : Window) (anchor : HTMLElement) :
  let r := getBoundingClientRect anchor in
  V020.getAvailableSpace w anchor Top = DOMRect.top r
  /\ V020.getAvailableSpace w anchor Bottom
     = innerHeight w - DOMRect.bottom r
  /\ V020.getAvailableSpace w anchor Left = DOMRect.left r
  /\ V020.getAvailableSpace w anchor Right
     = innerWidth w - DOMRect.right r
  /\ DOMRect.bottom r = DOMRect.top r + DOMRect.height r
  /\ DOMRect.right r = DOMRect.left r + DOMRect.width r
  /\ (forall size prefs p,
        V012.space (V012.candidate w anchor size prefs p)
        = V020.getAvailableSpace w anchor p)
  /\ V020.getAvailableSpace win800x600
       (mkElement (DOMRect.mk 590 (-30) 50 20) 50 20 [] false) Bottom
     == -10
  /\ V020.getAvailableSpace win800x600
       (mkElement (DOMRect.mk 590 (-30) 50 20) 50 20 [] false) Left
     == -30.
Proof.
  repeat split; try reflexivity.
  intros size prefs []; reflexivity.
Qed.

(** C7. The two Policy A scenarios: the anchor
    [{top: 500, left: 100, width: 50, height: 20}] in an 800 x 600 viewport,
    placement bottom, fallbacks top, right, left. A 120 x 40 panel goes to
    the bottom (80 available, 40 required); a 120 x 150 panel goes to the top
    (bottom has 80 < 150, top has 500 >= 150). *)
Theorem findBestPlacement_scenarios :
  V020.getAvailableSpace win800x600 anchor500 Bottom == 600 - 520
  /\ V020.getAvailableSpace win800x600 anchor500 Bottom == 80
  /\ V020.requiredFor panel120x40 Bottom == 40
  /\ V020.findBestPlacement win800x600 anchor500 panel120x40
       Bottom [Top; Right; Left] = Some Bottom
  /\ V020.requiredFor panel120x150 Bottom == 150
  /\ V020.getAvailableSpace win800x600 anchor500 Top == 500
  /\ V020.findBestPlacement win800x600 anchor500 panel120x150
       Bottom [Top; Right; Left] = Some Top.
Proof. repeat split. Qed.

(** ** Sorting *)

Lemma insert_Permutation {A} (cmp : A -> A -> Q) (x : A) (l : list A) :
  insert cmp x l ≡ₚ x :: l.
Proof.
  induction l as [|y l IH]; simpl; [reflexivity|].
  destruct (gt _ _); [|reflexivity].
  rewrite IH. apply Permutation_swap.
Qed.

Lemma sort_Permutation {A} (cmp : A -> A -> Q) (l : list A) :
  sort cmp l ≡ₚ l.
Proof.
  induction l as [|x l IH]; simpl; [reflexivity|].
  rewrite insert_Permutation. now rewrite IH.
Qed.

Lemma sort_length {A} (cmp : A -> A -> Q) (l : list A) :
  length (sort cmp l) = length l.
Proof. apply Permutation_length, sort_Permutation. Qed.

Lemma ranksBefore_trans (a b c : V012.PlacementScore) :
  ranksBefore a b -> ranksBefore b c -> ranksBefore a c.
Proof.
  unfold ranksBefore. intros [H1|[H1 I1]] [H2|[H2 I2]].
  - left. lra.
  - left. lra.
  - left. lra.
  - right. split; [lra|lia].
Qed.

(** Inserting an entry that is enumerated before every entry of a ranked
    list gives a ranked list. *)
Lemma insert_ranked (x : V012.PlacementScore) (l : list V012.PlacementScore) :
  StronglySorted ranksBefore l ->
  Forall (fun y => (enumIndex (V012.placement x)
                    < enumIndex (V012.placement y))%nat) l ->
  StronglySorted ranksBefore (insert V012.byScoreDesc x l).
Proof.
  induction l as [|y l IH]; simpl; intros Hs Hx.
  - repeat constructor.
  - apply StronglySorted_inv in Hs as [Hs Hy].
    apply Forall_cons in Hx as [Hxy Hx].
    unfold V012.byScoreDesc at 1.
    destruct (gt _ _) eqn:G.
    + apply gt_spec in G. constructor; [now apply IH|].
      rewrite insert_Permutation. constructor; [|exact Hy].
      left. lra.
    + apply gt_false in G.
      assert (Rxy : ranksBefore x y).
      { destruct (Qlt_le_dec (V012.score y) (V012.score x)) as [L|L].
        - now left.
        - right. split; [lra|exact Hxy]. }
      constructor; [now constructor|].
      constructor; [exact Rxy|].
      eapply Forall_impl; [exact Hy|].
      intros z Hz. eapply ranksBefore_trans; eassumption.
Qed.

Lemma sort_ranked (l : list V012.PlacementScore) :
  StronglySorted (fun a b => (enumIndex (V012.placement a)
                              < enumIndex (V012.placement b))%nat) l ->
  StronglySorted ranksBefore (sort V012.byScoreDesc l).
Proof.
  induction l as [|x l IH]; simpl; intros Hs.
  - constructor.
  - apply StronglySorted_inv in Hs as [Hs Hx].
    apply insert_ranked; [now apply IH|].
    now rewrite sort_Permutation.
Qed.

(** ** v0.1.2: the scoring engine *)

Lemma Math_max_Qmax (a b : Q) : Math_max a b == Qmax a b.
Proof.
  destruct (Math_max_spec a b) as [[H ->]|[H ->]].
  - symmetry. now apply Q.max_r.
  - symmetry. apply Q.max_l. lra.
Qed.

Lemma scored_fields w anchor size prefs p :
  let e := scored w anchor size prefs p in
  V012.placement e = p
  /\ V012.space e = V020.getAvailableSpace w anchor p
  /\ V012.overflow e == Qmax (dimension size p - V012.space e) 0
  /\ V012.misalign e
     = Math_abs (anchorCentre anchor p - comparedCentre anchor size p)
  /\ V012.preference e = default 0 (prefs !! p)
  /\ V012.score e
     == V012.space e - V012.overflow e - V012.misalign e + V012.preference e.
Proof.
  destruct p; simpl; (repeat split; try reflexivity);
    apply Math_max_Qmax.
Qed.

(** The two centres coincide when the anchor and the panel have the same
    extent. *)
Lemma centres_coincide anchor size p :
  crossGap anchor size p == 0 ->
  Math_abs (anchorCentre anchor p - comparedCentre anchor size p) == 0.
Proof.
  intros H.
  destruct (Math_abs_spec (anchorCentre anchor p
                           - comparedCentre anchor size p)) as [[_ ->]|[_ ->]];
    destruct p; unfold anchorCentre, comparedCentre, crossGap in *;
    lra_halves.
Qed.

Lemma Math_abs_nonneg (a : Q) : 0 <= Math_abs a.
Proof. destruct (Math_abs_spec a) as [[H ->]|[H ->]]; lra. Qed.

Lemma computeScores_Permutation w anchor size prefs :
  V012.computeScores w anchor size prefs
  ≡ₚ map (scored w anchor size prefs) [Top; Bottom; Left; Right].
Proof. unfold V012.computeScores. now rewrite sort_Permutation. Qed.

Lemma computeScores_ranked w anchor size prefs :
  StronglySorted ranksBefore (V012.computeScores w anchor size prefs).
Proof.
  apply sort_ranked. simpl.
  repeat (constructor; [|repeat constructor; simpl; lia]).
  constructor.
Qed.

(** The first entry of a ranked list has the highest score, and every
    entry enumerated before it has a strictly lower one. *)
Lemma ranked_head (h : V012.PlacementScore) (rest : list V012.PlacementScore)
    (s : V012.PlacementScore) :
  StronglySorted ranksBefore (h :: rest) ->
  s ∈ h :: rest ->
  V012.score s <= V012.score h
  /\ ((enumIndex (V012.placement s) < enumIndex (V012.placement h))%nat ->
      V012.score s < V012.score h).
Proof.
  intros Hs Hin. apply StronglySorted_inv in Hs as [_ Hh].
  apply elem_of_cons in Hin as [->|Hin].
  - split; [apply Qle_refl | lia].
  - rewrite Forall_forall in Hh.
    destruct (Hh s Hin) as [L|[E I]].
    + split; [lra | intros _; exact L].
    + split; [lra | lia].
Qed.

(** C3, as the code has it. The misalignment of an entry is the distance
    between two different coordinates: the anchor's centre,
    [r.left + r.width / 2], and [r.left + size.width / 2], the centre of a
    panel that starts where the anchor starts (on the vertical axis
    [r.top + r.height / 2] and [r.top + size.height / 2]). It is never
    negative, it is zero whenever the anchor and the panel have the same
    extent on that axis, and it is not zero in general. *)
Theorem misalign_compares_two_centres
    (w : Window) (anchor : HTMLElement) (size : V012.Size)
    (prefs : gmap Placement Q) :
  Forall (fun s =>
            V012.misalign s
            = Math_abs (anchorCentre anchor (V012.placement s)
                        - comparedCentre anchor size (V012.placement s))
            /\ 0 <= V012.misalign s
            /\ (crossGap anchor size (V012.placement s) == 0 ->
                V012.misalign s == 0))
    (V012.computeScores w anchor size prefs).
Proof.
  rewrite computeScores_Permutation.
  rewrite Forall_forall. intros s Hs.
  apply list_elem_of_In, in_map_iff in Hs as (p & <- & _).
  destruct (scored_fields w anchor size prefs p) as (-> & _ & _ & -> & _).
  split; [reflexivity|]. split; [apply Math_abs_nonneg|].
  apply centres_coincide.
Qed.

(** C3 for an anchor as wide and as high as the panel, 120 x 40: every
    misalignment is zero. *)
Lemma misalign_compares_two_centres_witness :
  Forall (fun s => V012.misalign s == 0)
    (V012.computeScores win800x600
       (mkElement (DOMRect.mk 500 100 120 40) 120 40 [] false)
       {| V012.width := 120; V012.height := 40 |} ∅).
Proof.
  eapply Forall_impl;
    [apply (misalign_compares_two_centres win800x600
              (mkElement (DOMRect.mk 500 100 120 40) 120 40 [] false)
              {| V012.width := 120; V012.height := 40 |} ∅)|].
  intros s (_ & _ & H). apply H.
  destruct (V012.placement s); vm_compute; reflexivity.
Defined.

(** C3 fails as stated: for the anchor of the scenarios (50 x 20) and a
    120 x 40 panel the misalignment is 35 for top and bottom and 10 for left
    and right. *)
Lemma misalign_not_always_zero :
  map (fun s => (V012.placement s, Qred (V012.misalign s)))
    (V012.computeScores win800x600 anchor500
       {| V012.width := 120; V012.height := 40 |} ∅)
  = [(Right, 10); (Top, 35); (Left, 10); (Bottom, 35)]
  /\ ~ Forall (fun s => V012.misalign s == 0)
       (V012.computeScores win800x600 anchor500
          {| V012.width := 120; V012.height := 40 |} ∅).
Proof.
  split; [reflexivity|].
  intros H. apply Forall_inv in H. vm_compute in H. discriminate.
Qed.

(** C4, as the code has it. [computeScores] scores all four Sides, listed
    in the bias map or not: the space of a Side is its available space, the
    overflow is [max(dimension - space, 0)], the bias defaults to 0, and the
    score is [space - overflow - misalign + bias], the misalignment being
    the distance between the anchor's centre and the centre of a panel that
    starts where the anchor starts. The result holds the four entries
    in ranking order: by descending score, and among equal scores in the
    enumeration order top, bottom, left, right; so its first entry has the
    maximum score and is the first such Side of the enumeration. *)
Theorem computeScores_ranking
    (w : Window) (anchor : HTMLElement) (size : V012.Size)
    (prefs : gmap Placement Q) :
  let entry := scored w anchor size prefs in
  let result := V012.computeScores w anchor size prefs in
  result ≡ₚ map entry [Top; Bottom; Left; Right]
  /\ (forall p,
        V012.placement (entry p) = p
        /\ V012.space (entry p) = V020.getAvailableSpace w anchor p
        /\ V012.overflow (entry p)
           == Qmax (dimension size p - V012.space (entry p)) 0
        /\ V012.misalign (entry p)
           = Math_abs (anchorCentre anchor p - comparedCentre anchor size p)
        /\ V012.preference (entry p) = default 0 (prefs !! p)
        /\ V012.score (entry p)
           == V012.space (entry p) - V012.overflow (entry p)
              - V012.misalign (entry p) + V012.preference (entry p))
  /\ StronglySorted ranksBefore result
  /\ exists h rest,
       result = h :: rest
       /\ (forall p, V012.score (entry p) <= V012.score h)
       /\ (forall p, (enumIndex p < enumIndex (V012.placement h))%nat ->
                     V012.score (entry p) < V012.score h).
Proof.
  intros entry result.
  pose proof (computeScores_Permutation w anchor size prefs) as HP.
  pose proof (computeScores_ranked w anchor size prefs) as HS.
  fold result in HP, HS. fold entry in HP.
  split; [exact HP|]. split; [apply scored_fields|]. split; [exact HS|].
  destruct result as [|h rest] eqn:E.
  { apply Permutation_length in HP. discriminate. }
  exists h, rest. split; [reflexivity|].
  assert (Hin : forall p, entry p ∈ h :: rest).
  { intros p. rewrite HP. apply list_elem_of_In, in_map.
    destruct p; simpl; tauto. }
  split; intros p.
  - apply (ranked_head h rest (entry p) HS (Hin p)).
  - intros I. apply (ranked_head h rest (entry p) HS (Hin p)).
    destruct (scored_fields w anchor size prefs p) as (Ep & _).
    fold entry in Ep. now rewrite Ep.
Qed.

(** C4 at a concrete input: top and bottom tie on the maximum score 85 and
    top, enumerated first, is ranked first. *)
Lemma computeScores_ranking_witness :
  exists h rest,
    V012.computeScores {| innerWidth := 100; innerHeight := 320 |}
      (mkElement (DOMRect.mk 150 45 10 20) 10 20 [] false)
      {| V012.width := 140; V012.height := 20 |} ∅ = h :: rest
    /\ V012.placement h = Top
    /\ V012.score h == 85
    /\ V012.score (scored {| innerWidth := 100; innerHeight := 320 |}
         (mkElement (DOMRect.mk 150 45 10 20) 10 20 [] false)
         {| V012.width := 140; V012.height := 20 |} ∅ Bottom) == 85.
Proof.
  destruct (computeScores_ranking {| innerWidth := 100; innerHeight := 320 |}
              (mkElement (DOMRect.mk 150 45 10 20) 10 20 [] false)
              {| V012.width := 140; V012.height := 20 |} ∅)
    as (_ & _ & _ & h & rest & E & _ & _).
  exists h, rest. split; [exact E|].
  vm_compute in E. injection E as <- _.
  repeat split.
Defined.

(** C4 fails as stated: the score is not [space - overflow + bias]. For a
    10 x 20 anchor at (200, 150) in a 320 x 400 viewport and a 140 x 20
    panel, top has [space - overflow + bias = 200], more than any other
    Side, yet its score is 135 and right, with score 160, is ranked first. *)
Lemma score_is_not_space_minus_overflow :
  let w := {| innerWidth := 320; innerHeight := 400 |} in
  let anchor := mkElement (DOMRect.mk 200 150 10 20) 10 20 [] false in
  let size := {| V012.width := 140; V012.height := 20 |} in
  map (fun s => (V012.placement s,
                 Qred (V012.space s - V012.overflow s + V012.preference s),
                 Qred (V012.score s)))
    (V012.computeScores w anchor size ∅)
  = [(Right, 160, 160); (Left, 150, 150); (Top, 200, 135); (Bottom, 180, 115)]
  /\ ~ Forall (fun s => V012.score s
                        == V012.space s - V012.overflow s + V012.preference s)
       (V012.computeScores w anchor size ∅).
Proof.
  split; [reflexivity|].
  intros H. apply Forall_inv_tail, Forall_inv_tail, Forall_inv in H.
  vm_compute in H. discriminate.
Qed.

(** ** v0.1.2: the positional bonus *)

Lemma addBonus_placements p bonus scores :
  map V012.placement (V012.addBonus p bonus scores)
  = map V012.placement scores.
Proof.
  induction scores as [|x scores IH]; simpl; [reflexivity|].
  destruct (decide _); simpl; [reflexivity|]. now rewrite IH.
Qed.

Lemma bonusLoop_placements len i rest scores :
  map V012.placement (V012.bonusLoop len i rest scores)
  = map V012.placement scores.
Proof.
  revert i scores. induction rest as [|p rest IH]; intros i scores; simpl.
  - reflexivity.
  - rewrite IH. apply addBonus_placements.
Qed.

Lemma computeScores_entry w anchor size prefs s :
  s ∈ V012.computeScores w anchor size prefs ->
  s = scored w anchor size prefs (V012.placement s).
Proof.
  rewrite computeScores_Permutation. intros Hs.
  apply list_elem_of_In, in_map_iff in Hs as (p & <- & _).
  now destruct p.
Qed.

(** The bonus is 10000 for each position, not more: with placement bottom
    and a bias of 20000 for top, the listed bottom ends at 10045 and the
    unlisted top at 20465. *)
Lemma preferred_does_not_always_outrank :
  let prefs : gmap Placement Q := {[ Top := 20000 ]} in
  let final :=
    V012.finalScores win800x600 anchor500 panel120x40 (V012.One Bottom)
      prefs in
  map (fun s => (V012.placement s, Qred (V012.score s))) final
  = [(Top, 20465); (Right, 640); (Left, 70); (Bottom, 10045)]
  /\ V012.computeBest win800x600 anchor500 panel120x40 (V012.One Bottom)
       prefs = Some Top
  /\ ~ (forall a b,
          a ∈ final -> b ∈ final ->
          V012.placement a ∈ [Bottom] -> V012.placement b ∉ [Bottom] ->
          V012.score b < V012.score a).
Proof.
  intros prefs final.
  split; [reflexivity|]. split; [reflexivity|].
  intros H.
  assert (E : exists b x y a,
             final = [b; x; y; a]
             /\ V012.placement a = Bottom /\ V012.placement b = Top
             /\ V012.score a < V012.score b).
  { do 4 eexists. split; [vm_compute; reflexivity|]. repeat split. }
  destruct E as (b & x & y & a & E & Pa & Pb & L).
  apply (Qlt_irrefl (V012.score a)).
  eapply Qlt_trans; [exact L|].
  apply H.
  - rewrite E. do 3 right. left.
  - rewrite E. left.
  - rewrite Pa. left.
  - rewrite Pb. intros Hin. apply list_elem_of_singleton in Hin.
    discriminate.
Qed.

(** The bonus never reaches the selection: the entries are ranked before
    the loop runs and are not ranked again, so [computeBest] returns the Side
    that [computeScores] ranked first. *)
Lemma computeBest_is_first_of_computeScores
    (w : Window) (anchor pop : HTMLElement)
    (placement : V012.PlacementOption) (prefs : gmap Placement Q) :
  V012.computeBest w anchor pop placement prefs
  = option_map V012.placement
      (V012.computeScores w anchor
         {| V012.width := offsetWidth pop; V012.height := offsetHeight pop |}
         prefs !! 0%nat).
Proof.
  unfold V012.computeBest, V012.finalScores.
  pose proof (bonusLoop_placements
                (length (V012.order_of placement)) 0
                (V012.order_of placement)
                (V012.computeScores w anchor
                   {| V012.width := offsetWidth pop;
                      V012.height := offsetHeight pop |} prefs)) as E.
  destruct (V012.bonusLoop _ _ _ _), (V012.computeScores _ _ _ _);
    simpl in *; congruence.
Qed.

(** C1, where the code departs from it: the first scenario of the spec
    (anchor [{top: 500, left: 100, width: 50, height: 20}], viewport
    800 x 600, panel 120 x 40) with placement bottom and no bias. After the
    bonus the preferred bottom has the highest final score, 10045, above
    right (640), top (465) and left (70); yet [computeBest] returns right,
    the entry that stood first before the bonus was added. For every input
    the result is the Side that [computeScores] ranked first: the entries
    are not ranked again after the bonus. *)
Theorem computeBest_returns_unpreferred :
  map (fun s => (V012.placement s, Qred (V012.score s)))
    (V012.finalScores win800x600 anchor500 panel120x40 (V012.One Bottom) ∅)
  = [(Right, 640); (Top, 465); (Left, 70); (Bottom, 10045)]
  /\ V012.computeBest win800x600 anchor500 panel120x40 (V012.One Bottom) ∅
     = Some Right
  /\ (forall w anchor pop placement prefs,
        V012.computeBest w anchor pop placement prefs
        = option_map V012.placement
            (V012.computeScores w anchor
               {| V012.width := offsetWidth pop;
                  V012.height := offsetHeight pop |} prefs !! 0%nat)).
Proof.
  split; [reflexivity|]. split; [reflexivity|].
  apply computeBest_is_first_of_computeScores.
Qed.

Lemma computeBest_total w anchor pop placement prefs :
  exists s, V012.computeBest w anchor pop placement prefs = Some s.
Proof.
  rewrite computeBest_is_first_of_computeScores.
  pose proof (computeScores_Permutation w anchor
                {| V012.width := offsetWidth pop;
                   V012.height := offsetHeight pop |} prefs) as HP.
  apply Permutation_length in HP.
  destruct (V012.computeScores _ _ _ _); [discriminate|].
  simpl. eauto.
Qed.

(** C5. Both selectors are total: for every window, anchor, panel and
    configuration, [findBestPlacement] and [computeBest] return a Side.
    Neither the [reduce] of the former nor the [scores[0]] of the latter can
    fail, and a function returns no more than one value. *)
Theorem selectors_total
    (w : Window) (anchor popover : HTMLElement)
    (preferred : Placement) (fallbacks : list Placement)
    (placement : V012.PlacementOption) (prefs : gmap Placement Q) :
  (exists s,
     V020.findBestPlacement w anchor popover preferred fallbacks = Some s)
  /\ (exists s,
        V012.computeBest w anchor popover placement prefs = Some s).
Proof.
  split; [apply findBestPlacement_total | apply computeBest_total].
Qed.

(** ** v0.2.0: the controller *)

(** The selector reads the anchor's bounding box and the panel's offset
    size, and nothing else of the two elements. *)
Lemma findBestPlacement_reads w a a' p p' preferred fallbacks :
  getBoundingClientRect a' = getBoundingClientRect a ->
  offsetWidth p' = offsetWidth p ->
  offsetHeight p' = offsetHeight p ->
  V020.findBestPlacement w a' p' preferred fallbacks
  = V020.findBestPlacement w a p preferred fallbacks.
Proof.
  intros Hr Hw Hh.
  assert (Ha : forall s,
            V020.getAvailableSpace w a' s = V020.getAvailableSpace w a s).
  { intros s. unfold V020.getAvailableSpace. now rewrite Hr. }
  assert (Hq : forall s, V020.requiredFor p' s = V020.requiredFor p s).
  { intros []; simpl; assumption. }
  assert (Ht : V020.tryFallbacks w a' p' fallbacks
               = V020.tryFallbacks w a p fallbacks).
  { induction fallbacks as [|f l IH]; simpl; [reflexivity|].
    now rewrite Ha, Hq, IH. }
  assert (Hm : forall l b,
            fold_left (V020.moreSpace w a') l b
            = fold_left (V020.moreSpace w a) l b).
  { induction l as [|x l IH]; intros b; simpl; [reflexivity|].
    rewrite IH. unfold V020.moreSpace. now rewrite !Ha. }
  unfold V020.findBestPlacement. rewrite Ha, Hq, Ht. simpl. now rewrite Hm.
Qed.

Lemma update_after_setPlacement (c : V020.PopoverController) (pg : Page)
    (s : Placement) :
  is_Some (elements pg !! V020.c_anchor c) ->
  is_Some (elements pg !! V020.element c) ->
  V020.update c (V020.setPlacement (V020.element c) s pg) = V020.update c pg.
Proof.
  intros [a Ea] [p Ep].
  unfold V020.update, V020.setPlacement. simpl.
  rewrite (lookup_alter_eq _ _ (V020.element c)), Ep, Ea. simpl.
  assert (exists a', alter (V020.withPlacement s) (V020.element c)
                       (elements pg) !! V020.c_anchor c = Some a'
                     /\ getBoundingClientRect a' = getBoundingClientRect a)
    as (a' & -> & Ha).
  { rewrite lookup_alter. destruct (decide _) as [E|NE].
    - rewrite Ep. exists (V020.withPlacement s p). split; [reflexivity|].
      rewrite E in Ep. simpl. congruence.
    - exists a. split; [exact Ea|reflexivity]. }
  rewrite (findBestPlacement_reads _ a a' p (V020.withPlacement s p))
    by (try reflexivity; exact Ha).
  destruct (V020.findBestPlacement _ _ _ _ _) as [best|] eqn:F.
  - unfold V020.setPlacement, set_elements. simpl. f_equal.
    rewrite alter_alter_eq. apply alter_ext. reflexivity.
  - destruct (findBestPlacement_total (window pg) a p
                (V020.c_placement c) (V020.c_fallbacks c)) as (x & Hx).
    congruence.
Qed.

(** After [update()] the panel carries the Side the selector returned. *)
Lemma update_writes_selection (c : V020.PopoverController) (pg : Page) a p :
  elements pg !! V020.c_anchor c = Some a ->
  elements pg !! V020.element c = Some p ->
  data_placement <$> elements (V020.update c pg) !! V020.element c
  = Some (V020.findBestPlacement (window pg) a p
            (V020.c_placement c) (V020.c_fallbacks c)).
Proof.
  intros Ea Ep. unfold V020.update. rewrite Ea, Ep.
  destruct (findBestPlacement_total (window pg) a p
              (V020.c_placement c) (V020.c_fallbacks c)) as (x & ->).
  unfold V020.setPlacement. simpl.
  now rewrite lookup_alter_eq, Ep.
Qed.

(** C8. Re-evaluation is idempotent and has no memory: a second [update()]
    leaves the page as the first one left it; and, for a controller whose
    anchor and panel are elements of the page, the Side on the panel after
    one [update()] and after two is the Side the selector returns for the
    current geometry, and [update()] gives the same page whatever Side was
    written to the panel beforehand. *)
Theorem update_idempotent (c : V020.PopoverController) (pg : Page) :
  V020.update c (V020.update c pg) = V020.update c pg
  /\ (forall a p,
        elements pg !! V020.c_anchor c = Some a ->
        elements pg !! V020.element c = Some p ->
        let side :=
          V020.findBestPlacement (window pg) a p
            (V020.c_placement c) (V020.c_fallbacks c) in
        data_placement <$> elements (V020.update c pg) !! V020.element c
        = Some side
        /\ data_placement
             <$> elements (V020.update c (V020.update c pg)) !! V020.element c
           = Some side)
  /\ (is_Some (elements pg !! V020.c_anchor c) ->
      is_Some (elements pg !! V020.element c) ->
      forall s,
        V020.update c (V020.setPlacement (V020.element c) s pg)
        = V020.update c pg).
Proof.
  assert (Idem : V020.update c (V020.update c pg) = V020.update c pg);
    [|split; [exact Idem|split]].
  - destruct (elements pg !! V020.c_anchor c) as [a|] eqn:Ea.
    + destruct (elements pg !! V020.element c) as [p|] eqn:Ep.
      * assert (E : exists best,
                  V020.update c pg
                  = V020.setPlacement (V020.element c) best pg).
        { unfold V020.update. rewrite Ea, Ep.
          destruct (findBestPlacement_total (window pg) a p
                      (V020.c_placement c) (V020.c_fallbacks c))
            as (x & ->). eauto. }
        destruct E as (best & E). rewrite E at 1.
        apply update_after_setPlacement; eauto.
      * assert (E : V020.update c pg = pg)
          by (unfold V020.update; now rewrite Ea, Ep).
        now rewrite !E.
    + assert (E : V020.update c pg = pg)
        by (unfold V020.update; now rewrite Ea).
      now rewrite !E.
  - intros a p Ea Ep side. rewrite Idem.
    split; now apply update_writes_selection.
  - intros Ha Hp s. now apply update_after_setPlacement.
Qed.

(** C8 on the page that [createPopover] leaves: the panel carries bottom
    after [update()], and after left has been written over it, [update()]
    gives the same page again. *)
Lemma update_idempotent_witness :
  is_Some (elements page1 !! V020.c_anchor controller0)
  /\ is_Some (elements page1 !! V020.element controller0)
  /\ V020.update controller0
       (V020.setPlacement (V020.element controller0) Left page1)
     = V020.update controller0 page1.
Proof.
  assert (Ha : is_Some (elements page1 !! V020.c_anchor controller0))
    by (exists anchor500; vm_compute; reflexivity).
  assert (Hp : is_Some (elements page1 !! V020.element controller0))
    by (eexists; vm_compute; reflexivity).
  split; [exact Ha|]. split; [exact Hp|].
  destruct (update_idempotent controller0 page1) as (_ & _ & H).
  apply H; assumption.
Defined.

(** C10. When the [fallbacks] option is omitted, the fallbacks are top,
    right, left without the preferred placement: the preferred Side is not
    among them, no candidate occurs twice, and unless the preferred placement
    is bottom itself, bottom is no candidate and is never selected. *)
Theorem default_fallbacks_exclude_bottom
    (anchor : nat) (opts : V020.PopoverOptions) (pg : Page) :
  V020.opt_fallbacks opts = None ->
  let c := (V020.createPopover anchor opts pg).1 in
  V020.c_placement c = default Bottom (V020.opt_placement opts)
  /\ V020.c_fallbacks c
     = filter (fun p => p <> V020.c_placement c) [Top; Right; Left]
  /\ (V020.c_placement c ∉ V020.c_fallbacks c)
  /\ NoDup (V020.c_placement c :: V020.c_fallbacks c)
  /\ (V020.c_placement c <> Bottom ->
      (Bottom ∉ V020.c_placement c :: V020.c_fallbacks c)
      /\ forall w a p,
           V020.findBestPlacement w a p
             (V020.c_placement c) (V020.c_fallbacks c) <> Some Bottom).
Proof.
  intros Hf c. subst c. unfold V020.createPopover. simpl. rewrite Hf. simpl.
  set (placement := default Bottom (V020.opt_placement opts)).
  split; [reflexivity|]. split; [reflexivity|].
  assert (Hnot : placement <> Bottom ->
                 Bottom ∉ placement :: V020.defaultFallbacks placement).
  { intros NB Hin. apply elem_of_cons in Hin as [E|Hin]; [congruence|].
    apply list_elem_of_filter in Hin as [_ Hin].
    repeat (apply elem_of_cons in Hin as [E|Hin]; [discriminate|]).
    inversion Hin. }
  split; [|split; [|split]].
  - intros Hin. apply list_elem_of_filter in Hin as [NE _]. now apply NE.
  - destruct placement; apply (bool_decide_unpack _); reflexivity.
  - now apply Hnot.
  - intros w a p E. apply findBestPlacement_elem in E. now apply Hnot in E.
Qed.

(** C10 for the placement top: the candidates are top, right, left. *)
Lemma default_fallbacks_exclude_bottom_witness :
  let c :=
    (V020.createPopover 3
       {| V020.opt_placement := Some Top; V020.opt_offset := None;
          V020.opt_fallbacks := None |} page0).1 in
  V020.c_placement c :: V020.c_fallbacks c = [Top; Right; Left]
  /\ forall w a p,
       V020.findBestPlacement w a p
         (V020.c_placement c) (V020.c_fallbacks c) <> Some Bottom.
Proof.
  intros c. split; [reflexivity|].
  destruct (default_fallbacks_exclude_bottom 3
              {| V020.opt_placement := Some Top; V020.opt_offset := None;
                 V020.opt_fallbacks := None |} page0 eq_refl)
    as (_ & _ & _ & _ & H).
  apply H. discriminate.
Defined.

(** ** Listeners and observers *)

Lemma sameListener_callback ty fn cap l :
  sameListener ty fn cap l = true -> callback l = fn.
Proof.
  unfold sameListener. intros H.
  apply andb_prop in H as [H _]. apply andb_prop in H as [_ H].
  now apply bool_decide_eq_true in H.
Qed.

Lemma removeFirst_subset {A} (f : A -> bool) (ls : list A) (x : A) :
  x ∈ removeFirst f ls -> x ∈ ls.
Proof.
  induction ls as [|y ls IH]; simpl; [trivial|].
  destruct (f y).
  - intros H. now right.
  - intros H. apply elem_of_cons in H as [->|H]; [left|right; auto].
Qed.

(** Removing the controller's listener from a tidy list leaves none. *)
Lemma removeFirst_clean (fn : Fn) (ls : list EventListener) :
  (length (filter (fun l => callback l = fn) ls) <= 1)%nat ->
  (forall l, l ∈ ls -> callback l = fn ->
             sameListener "scroll" fn false l = true) ->
  forall l, l ∈ removeFirst (sameListener "scroll" fn false) ls ->
            callback l <> fn.
Proof.
  induction ls as [|x ls IH]; simpl; intros Hc Hs l Hl.
  - inversion Hl.
  - destruct (sameListener "scroll" fn false x) eqn:S.
    + apply sameListener_callback in S.
      rewrite filter_cons_True in Hc by exact S. simpl in Hc.
      intros E.
      assert (Hin : l ∈ filter (fun l => callback l = fn) ls)
        by (apply list_elem_of_filter; auto).
      destruct (filter _ ls); [inversion Hin | simpl in Hc; lia].
    + assert (Hx : callback x <> fn).
      { intros E. rewrite (Hs x) in S; [discriminate|left|exact E]. }
      rewrite filter_cons_False in Hc by exact Hx.
      apply elem_of_cons in Hl as [->|Hl]; [exact Hx|].
      apply IH; [exact Hc| |exact Hl].
      intros l' Hl' E. apply Hs; [now right|exact E].
Qed.

Lemma clean_tidy fn pg t : clean fn pg t -> tidy fn pg t.
Proof.
  intros H. split.
  - destruct (filter _ _) as [|l ?] eqn:F; simpl; [lia|].
    assert (Hl : l ∈ filter (fun l => callback l = fn) (listenersOf pg t))
      by (rewrite F; left).
    apply list_elem_of_filter in Hl as [E Hl]. now apply H in Hl.
  - intros l Hl E. now apply H in Hl.
Qed.

Lemma listenersOf_remove ty fn pg t t' :
  listenersOf (removeEventListener ty fn pg t) t'
  = if decide (t = t')
    then removeFirst (sameListener ty fn false) (listenersOf pg t)
    else listenersOf pg t'.
Proof.
  unfold removeEventListener, listenersOf at 1. simpl.
  rewrite lookup_insert. now destruct (decide (t = t')).
Qed.

Lemma listenersOf_add ty fn pass pg t t' :
  listenersOf (addEventListener ty fn pass pg t) t'
  = if decide (t = t')
    then if existsb (sameListener ty fn false) (listenersOf pg t)
         then listenersOf pg t
         else listenersOf pg t
              ++ [ {| ev_type := ty; callback := fn; capture := false;
                      passive := pass |} ]
    else listenersOf pg t'.
Proof.
  unfold addEventListener.
  destruct (existsb _ _) eqn:X.
  - destruct (decide (t = t')) as [->|]; reflexivity.
  - unfold listenersOf at 1. simpl. rewrite lookup_insert.
    now destruct (decide (t = t')).
Qed.

Lemma remove_clean fn pg t t' :
  clean fn pg t' -> clean fn (removeEventListener "scroll" fn pg t) t'.
Proof.
  intros H l. rewrite listenersOf_remove.
  destruct (decide (t = t')) as [->|]; [|apply H].
  intros Hl. apply removeFirst_subset in Hl. now apply H.
Qed.

Lemma remove_tidy fn pg t t' :
  tidy fn pg t' -> tidy fn (removeEventListener "scroll" fn pg t) t'.
Proof.
  intros [Hc Hs]. destruct (decide (t = t')) as [->|NE].
  - apply clean_tidy. intros l. rewrite listenersOf_remove.
    rewrite decide_True by reflexivity. now apply removeFirst_clean.
  - unfold tidy. rewrite listenersOf_remove.
    rewrite decide_False by exact NE. now split.
Qed.

Lemma remove_here fn pg t :
  tidy fn pg t -> clean fn (removeEventListener "scroll" fn pg t) t.
Proof.
  intros [Hc Hs] l. rewrite listenersOf_remove.
  rewrite decide_True by reflexivity. now apply removeFirst_clean.
Qed.

(** [scrollParents.forEach(p => p.removeEventListener("scroll", update))]. *)
Lemma remove_all fn ps : forall pg,
  (forall t, tidy fn pg t) ->
  let pg' := fold_left (removeEventListener "scroll" fn) ps pg in
  (forall t, tidy fn pg' t)
  /\ (forall t, t ∈ ps -> clean fn pg' t)
  /\ (forall t, clean fn pg t -> clean fn pg' t)
  /\ observers pg' = observers pg.
Proof.
  induction ps as [|p ps IH]; intros pg Ht; simpl.
  - split; [exact Ht|]. split; [intros t Hin; inversion Hin|].
    split; [trivial|reflexivity].
  - destruct (IH (removeEventListener "scroll" fn pg p))
      as (T & C & K & O).
    { intros t. apply remove_tidy, Ht. }
    split; [|split; [|split]].
    + exact T.
    + intros t Hin. apply elem_of_cons in Hin as [->|Hin]; [|now apply C].
      apply K, remove_here, Ht.
    + intros t Hc. apply K, remove_clean, Hc.
    + exact O.
Qed.

Lemma add_tidy fn pg t t' :
  tidy fn pg t' -> tidy fn (addEventListener "scroll" fn true pg t) t'.
Proof.
  intros [Hc Hs]. unfold tidy. rewrite listenersOf_add.
  destruct (decide (t = t')) as [->|NE]; [|now split].
  destruct (existsb _ _) eqn:X; [now split|].
  assert (F : filter (fun l => callback l = fn) (listenersOf pg t') = []).
  { destruct (filter _ _) as [|l ?] eqn:F; [reflexivity|].
    assert (Hl : l ∈ filter (fun l => callback l = fn) (listenersOf pg t'))
      by (rewrite F; left).
    apply list_elem_of_filter in Hl as [E Hl].
    assert (existsb (sameListener "scroll" fn false) (listenersOf pg t')
            = true); [|congruence].
    apply existsb_exists. exists l. split; [now apply list_elem_of_In|].
    now apply Hs. }
  split.
  - rewrite filter_app, F, filter_cons_True by reflexivity. simpl. lia.
  - intros l Hl E. apply elem_of_app in Hl as [Hl|Hl]; [now apply Hs|].
    apply list_elem_of_singleton in Hl as ->.
    unfold sameListener. simpl.
    now rewrite !bool_decide_eq_true_2 by reflexivity.
Qed.

Lemma add_clean fn pg t t' :
  t <> t' -> clean fn pg t' ->
  clean fn (addEventListener "scroll" fn true pg t) t'.
Proof.
  intros NE H l. rewrite listenersOf_add.
  rewrite decide_False by exact NE. apply H.
Qed.

Lemma addEventListener_observers ty fn pass pg t :
  observers (addEventListener ty fn pass pg t) = observers pg.
Proof. unfold addEventListener. now destruct (existsb _ _). Qed.

(** [scrollParents.forEach(p => p.addEventListener("scroll", update, ...))]. *)
Lemma add_all fn ps : forall pg,
  (forall t, tidy fn pg t) ->
  let pg' := fold_left (addEventListener "scroll" fn true) ps pg in
  (forall t, tidy fn pg' t)
  /\ (forall t, t ∉ ps -> clean fn pg t -> clean fn pg' t)
  /\ observers pg' = observers pg.
Proof.
  induction ps as [|p ps IH]; intros pg Ht; simpl.
  - split; [exact Ht|]. split; [trivial|reflexivity].
  - destruct (IH (addEventListener "scroll" fn true pg p)) as (T & C & O).
    { intros t. apply add_tidy, Ht. }
    split; [exact T|]. split.
    + intros t Hin Hc. apply not_elem_of_cons in Hin as [NE Hin].
      apply C; [exact Hin|]. apply add_clean; [congruence|exact Hc].
    + rewrite O. apply addEventListener_observers.
Qed.

Lemma update_registry c pg :
  listeners (V020.update c pg) = listeners pg
  /\ observers (V020.update c pg) = observers pg.
Proof.
  unfold V020.update.
  destruct (elements pg !! V020.c_anchor c); [|now split].
  destruct (elements pg !! V020.element c); [|now split].
  destruct (V020.findBestPlacement _ _ _ _ _); now split.
Qed.

Lemma calls_registry c fns : forall pg,
  listeners (fold_left (V020.call c) fns pg) = listeners pg
  /\ observers (fold_left (V020.call c) fns pg) = observers pg.
Proof.
  induction fns as [|fn fns IH]; intros pg; simpl; [now split|].
  destruct (IH (V020.call c pg fn)) as [-> ->].
  unfold V020.call. destruct (decide _); [apply update_registry|now split].
Qed.

(** Signals run [update] at most: they leave the listeners and observers
    of the page as they are. *)
Lemma signals_registry c sigs : forall pg,
  listeners (fold_left (V020.signal c) sigs pg) = listeners pg
  /\ observers (fold_left (V020.signal c) sigs pg) = observers pg.
Proof.
  induction sigs as [|sig sigs IH]; intros pg; simpl; [now split|].
  destruct (IH (V020.signal c pg sig)) as [-> ->].
  apply calls_registry.
Qed.

Lemma released_registry fn pg pg' :
  listeners pg' = listeners pg -> observers pg' = observers pg ->
  released fn pg -> released fn pg'.
Proof.
  intros EL EO [HL HO]. split.
  - intros t l. unfold listenersOf. rewrite EL. apply HL.
  - intros o ob. rewrite EO. apply HO.
Qed.

(** A released callback is invoked by no signal. *)
Lemma released_invoked fn pg sig : released fn pg -> fn ∉ invoked pg sig.
Proof.
  intros [HL HO] Hin. destruct sig as [path|target]; simpl in Hin.
  - apply list_elem_of_In, in_concat in Hin as (fns & Hfns & Hfn).
    apply in_map_iff in Hfns as (t & <- & _).
    apply in_map_iff in Hfn as (l & E & Hl).
    apply list_elem_of_In, list_elem_of_filter in Hl as [_ Hl].
    now apply HL in Hl.
  - apply list_elem_of_In, in_map_iff in Hin as ([o ob] & E & Hob).
    apply list_elem_of_In, list_elem_of_filter in Hob as [Ht Hob].
    apply elem_of_map_to_list in Hob.
    rewrite (HO o ob Hob E) in Ht. inversion Ht.
Qed.

(** What [createPopover] leaves in the listener lists and observers of a
    well-formed page: the new [update] is registered at most once per
    element, on scroll parents only, and the new observer is the only one
    that calls it. *)
Lemma createPopover_registry (anchor : nat) (opts : V020.PopoverOptions)
    (pg : Page) :
  wellFormed pg ->
  let c := (V020.createPopover anchor opts pg).1 in
  let pg1 := (V020.createPopover anchor opts pg).2 in
  let fn := V020.c_update c in
  (forall t, tidy fn pg1 t)
  /\ (forall t, t ∉ V020.c_scrollParents c -> clean fn pg1 t)
  /\ (forall o ob, observers pg1 !! o = Some ob -> ro_callback ob = fn ->
                   o = V020.c_resizeObserver c).
Proof.
  intros [WL WO]. unfold V020.createPopover. cbn zeta.
  cbn [fst snd V020.c_update V020.c_scrollParents V020.c_resizeObserver].
  set (pgD := V020.appendChild _ _ _).
  assert (FD : fresh pgD = S (fresh pg)).
  { subst pgD. simpl. lia. }
  assert (LD : listeners pgD = listeners pg) by reflexivity.
  assert (OD : observers pgD = observers pg) by reflexivity.
  clearbody pgD.
  set (fn := fresh pgD) in *.
  set (ro := fresh (allocate 1 pgD)).
  assert (Fro : ro = S fn) by (subst ro fn; simpl; lia).
  set (pgH := observe ro (fresh pg) _).
  assert (LH : listeners pgH = listeners pg) by (rewrite <- LD; reflexivity).
  assert (OH : forall o ob, observers pgH !! o = Some ob ->
                            ro_callback ob = fn -> o = ro).
  { intros o ob Hob E. destruct (decide (o = ro)) as [|NE]; [assumption|].
    exfalso. subst pgH. unfold observe, set_observers in Hob. simpl in Hob.
    rewrite !lookup_alter_ne in Hob by congruence.
    rewrite lookup_insert_ne in Hob by congruence.
    rewrite OD in Hob. apply WO in Hob. lia. }
  clearbody pgH.
  assert (CH : forall t, clean fn pgH t).
  { intros t l. unfold listenersOf. rewrite LH. intros Hl.
    apply WL in Hl. lia. }
  destruct (add_all fn (getScrollParents pgH anchor) pgH) as (T & C & O).
  { intros t. apply clean_tidy, CH. }
  split; [exact T|]. split; [intros t Ht; apply C; [exact Ht|apply CH]|].
  intros o ob. rewrite O. apply OH.
Qed.

(** [destroy()] on a page where the registrations are as [createPopover]
    made them. *)
Lemma destroy_released (c : V020.PopoverController) (pg : Page) :
  (forall t, tidy (V020.c_update c) pg t) ->
  (forall t, t ∉ V020.c_scrollParents c -> clean (V020.c_update c) pg t) ->
  (forall o ob, observers pg !! o = Some ob ->
                ro_callback ob = V020.c_update c ->
                o = V020.c_resizeObserver c) ->
  released (V020.c_update c) (V020.destroy c pg).
Proof.
  intros HT HC HO. unfold V020.destroy.
  set (fn := V020.c_update c) in *.
  set (pgA := disconnect (V020.c_resizeObserver c) pg).
  assert (LA : forall t, listenersOf pgA t = listenersOf pg t)
    by reflexivity.
  destruct (remove_all fn (V020.c_scrollParents c) pgA) as (T & C & K & O).
  { intros t. unfold tidy. rewrite LA. apply HT. }
  apply (released_registry fn
           (fold_left (removeEventListener "scroll" fn)
              (V020.c_scrollParents c) pgA)); [reflexivity|reflexivity|].
  split.
  - intros t. destruct (decide (t ∈ V020.c_scrollParents c)) as [Hin|Hin].
    + now apply C.
    + apply K. intros l. rewrite LA. now apply HC.
  - intros o ob. rewrite O. subst pgA. unfold disconnect. simpl.
    rewrite lookup_alter_Some. intros [[<- (x & Hx & ->)]|[NE Hob]] E.
    + reflexivity.
    + exfalso. apply NE. symmetry. eapply HO; eassumption.
Qed.

(** Signals, then [destroy()], then signals again, for any controller
    whose registrations are as [createPopover] made them. *)
Lemma destroyed_stays_released (c : V020.PopoverController) (created : Page)
    (before after : list Signal) (sig : Signal) :
  ((forall t, tidy (V020.c_update c) created t)
   /\ (forall t, t ∉ V020.c_scrollParents c ->
                 clean (V020.c_update c) created t)
   /\ (forall o ob, observers created !! o = Some ob ->
                    ro_callback ob = V020.c_update c ->
                    o = V020.c_resizeObserver c)) ->
  released (V020.c_update c)
    (V020.destroy c (fold_left (V020.signal c) before created))
  /\ V020.c_update c
     ∉ invoked
         (fold_left (V020.signal c) after
            (V020.destroy c (fold_left (V020.signal c) before created)))
         sig.
Proof.
  intros (T & C & O).
  set (destroyed :=
         V020.destroy c (fold_left (V020.signal c) before created)).
  destruct (signals_registry c before created) as [EL EO].
  assert (R : released (V020.c_update c) destroyed).
  { apply destroy_released.
    - intros t. unfold tidy, listenersOf. rewrite EL. apply T.
    - intros t Ht. unfold clean, listenersOf. rewrite EL. now apply C.
    - intros o ob. rewrite EO. apply O. }
  split; [exact R|].
  apply released_invoked.
  destruct (signals_registry c after destroyed) as [EL' EO'].
  now apply (released_registry _ destroyed).
Qed.

(** C9. After [destroy()] nothing calls [update] any more. On a page whose
    functions and observers are all older than the controller, create the
    controller, let any signals pass, and destroy it: then no element holds
    a listener whose callback is [update], the observer that calls [update]
    observes nothing, and whatever signals follow, none of them invokes
    [update]. *)
Theorem destroy_releases_observers
    (pg : Page) (anchor : nat) (opts : V020.PopoverOptions)
    (before after : list Signal) (sig : Signal) :
  wellFormed pg ->
  let c := (V020.createPopover anchor opts pg).1 in
  let created := (V020.createPopover anchor opts pg).2 in
  let destroyed :=
    V020.destroy c (fold_left (V020.signal c) before created) in
  released (V020.c_update c) destroyed
  /\ V020.c_update c
     ∉ invoked (fold_left (V020.signal c) after destroyed) sig.
Proof.
  intros WF.
  exact (destroyed_stays_released _ _ before after sig
           (createPopover_registry anchor opts pg WF)).
Qed.

(** Before [destroy()], on the page that [createPopover] leaves: a scroll of
    the container and a size change of the anchor or of the panel each
    invoke [update]. *)
Lemma update_invoked_before_destroy :
  V020.c_update controller0 ∈ invoked page1 (ScrollSignal [2%nat])
  /\ V020.c_update controller0 ∈ invoked page1 (SizeChange 3)
  /\ V020.c_update controller0
     ∈ invoked page1 (SizeChange (V020.element controller0)).
Proof.
  repeat split; apply (bool_decide_unpack _); vm_compute; reflexivity.
Qed.

(** C9 on [page0]: the controller is created, the container scrolls and
    the anchor changes size, the controller is destroyed; the same scroll
    no longer invokes [update]. *)
Lemma destroy_releases_observers_witness :
  let destroyed :=
    V020.destroy controller0
      (fold_left (V020.signal controller0)
         [ScrollSignal [2; 0]%nat; SizeChange 3] page1) in
  released (V020.c_update controller0) destroyed
  /\ V020.c_update controller0
     ∉ invoked (fold_left (V020.signal controller0) [SizeChange 3] destroyed)
         (ScrollSignal [2; 0]%nat).
Proof.
  apply (destroy_releases_observers page0 3 noOptions
           [ScrollSignal [2; 0]%nat; SizeChange 3] [SizeChange 3]
           (ScrollSignal [2; 0]%nat)).
  split.
  - intros t l. unfold listenersOf. simpl.
    destruct (decide (t = 2%nat)) as [->|NE].
    + rewrite lookup_singleton_eq. simpl. intros Hl.
      apply list_elem_of_singleton in Hl as ->. simpl. lia.
    + rewrite lookup_singleton_ne by congruence. simpl.
      intros Hl. inversion Hl.
  - intros o ob. simpl. rewrite lookup_empty. discriminate.
Defined.

(** * Further properties of the code *)

(** ** v0.2.0: the selector *)

Lemma moreSpace_ge w anchor b y :
  V020.getAvailableSpace w anchor b
  <= V020.getAvailableSpace w anchor (V020.moreSpace w anchor b y)
  /\ V020.getAvailableSpace w anchor y
     <= V020.getAvailableSpace w anchor (V020.moreSpace w anchor b y).
Proof.
  unfold V020.moreSpace. destruct (gt _ _) eqn:G.
  - apply gt_spec in G. split; lra.
  - apply gt_false in G. split; lra.
Qed.

(** A Side that does not fit can be struck from the fallbacks. *)
Lemma tryFallbacks_filter w anchor popover x l :
  V020.getAvailableSpace w anchor x < V020.requiredFor popover x ->
  V020.tryFallbacks w anchor popover (filter (fun y => y <> x) l)
  = V020.tryFallbacks w anchor popover l.
Proof.
  intros Hx. induction l as [|y l IH]; [reflexivity|].
  destruct (decide (y = x)) as [->|NE].
  - rewrite filter_cons_False by (intros H; now apply H).
    simpl. apply geq_false in Hx. now rewrite Hx.
  - rewrite filter_cons_True by exact NE. simpl. now rewrite IH.
Qed.

(** A Side with no more space than the current best can be struck from
    what the final [reduce] still has to visit. *)
Lemma fold_moreSpace_filter w anchor x l : forall b,
  V020.getAvailableSpace w anchor x <= V020.getAvailableSpace w anchor b ->
  fold_left (V020.moreSpace w anchor) (filter (fun y => y <> x) l) b
  = fold_left (V020.moreSpace w anchor) l b.
Proof.
  induction l as [|y l IH]; intros b Hb; [reflexivity|].
  destruct (decide (y = x)) as [->|NE].
  - rewrite filter_cons_False by (intros H; now apply H).
    simpl. rewrite IH by exact Hb. f_equal.
    unfold V020.moreSpace. apply gt_false in Hb. now rewrite Hb.
  - rewrite filter_cons_True by exact NE. simpl. apply IH.
    destruct (moreSpace_ge w anchor b y) as [H _]. lra.
Qed.

Lemma tryFallbacks_nub w anchor popover l :
  V020.tryFallbacks w anchor popover (nub l)
  = V020.tryFallbacks w anchor popover l.
Proof.
  induction l as [|x l IH]; [reflexivity|]. simpl.
  destruct (geq _ _) eqn:G; [reflexivity|].
  apply geq_false in G. now rewrite tryFallbacks_filter.
Qed.

Lemma fold_moreSpace_nub w anchor l : forall b,
  fold_left (V020.moreSpace w anchor) (nub l) b
  = fold_left (V020.moreSpace w anchor) l b.
Proof.
  induction l as [|x l IH]; intros b; [reflexivity|]. simpl.
  rewrite fold_moreSpace_filter; [apply IH|].
  apply moreSpace_ge.
Qed.

(** X1. [findBestPlacement] returns one of its candidates: the preferred
    Side or one of the fallbacks, never a Side that was not offered. *)
Theorem findBestPlacement_among_candidates
    (w : Window) (anchor popover : HTMLElement)
    (preferred : Placement) (fallbacks : list Placement) :
  exists s,
    V020.findBestPlacement w anchor popover preferred fallbacks = Some s
    /\ s ∈ preferred :: fallbacks.
Proof.
  destruct (findBestPlacement_total w anchor popover preferred fallbacks)
    as (s & Hs).
  exists s. split; [exact Hs|].
  eapply findBestPlacement_elem, Hs.
Qed.

(** X2. The result of [findBestPlacement] has the space it requires exactly
    when some candidate has: the fallback to "the most space" is taken only
    when nothing fits. *)
Theorem findBestPlacement_fits_iff_possible
    (w : Window) (anchor popover : HTMLElement)
    (preferred : Placement) (fallbacks : list Placement) :
  let avail := V020.getAvailableSpace w anchor in
  let required := V020.requiredFor popover in
  (exists s,
     V020.findBestPlacement w anchor popover preferred fallbacks = Some s
     /\ required s <= avail s)
  <-> (exists o, o ∈ preferred :: fallbacks /\ required o <= avail o).
Proof.
  intros avail required. split.
  - intros (s & Hs & Hfit). exists s. split; [|exact Hfit].
    eapply findBestPlacement_elem, Hs.
  - intros (o & Ho & Hfit). unfold V020.findBestPlacement.
    fold avail required.
    destruct (geq (avail preferred) (required preferred)) eqn:G.
    { apply geq_spec in G. eauto. }
    apply geq_false in G.
    destruct (V020.tryFallbacks w anchor popover fallbacks) as [f|] eqn:T.
    + apply tryFallbacks_Some in T as (pre & post & _ & Hf & _). eauto.
    + exfalso. apply elem_of_cons in Ho as [->|Ho].
      * apply (Qlt_not_le _ _ G Hfit).
      * pose proof (proj1 (tryFallbacks_None w anchor popover fallbacks) T
                      o Ho) as Hno.
        apply (Qlt_not_le _ _ Hno Hfit).
Qed.

(** X3. Repetitions among the candidates change nothing: striking from the
    fallbacks every repeated Side and every occurrence of the preferred
    Side gives the same result; and without fallbacks the result is the
    preferred Side, whether it fits or not. *)
Theorem findBestPlacement_ignores_repetitions
    (w : Window) (anchor popover : HTMLElement)
    (preferred : Placement) (fallbacks : list Placement) :
  V020.findBestPlacement w anchor popover preferred
    (filter (fun f => f <> preferred) (nub fallbacks))
  = V020.findBestPlacement w anchor popover preferred fallbacks
  /\ V020.findBestPlacement w anchor popover preferred [] = Some preferred.
Proof.
  split.
  - unfold V020.findBestPlacement.
    destruct (geq _ _) eqn:G; [reflexivity|].
    apply geq_false in G.
    rewrite tryFallbacks_filter by exact G.
    rewrite tryFallbacks_nub.
    destruct (V020.tryFallbacks _ _ _ fallbacks); [reflexivity|].
    simpl. f_equal.
    rewrite fold_moreSpace_filter by apply Qle_refl.
    apply fold_moreSpace_nub.
  - unfold V020.findBestPlacement. now destruct (geq _ _).
Qed.

(** ** Registration and release, in full *)

Lemma clean_not_same fn pg t l :
  clean fn pg t -> l ∈ listenersOf pg t ->
  sameListener "scroll" fn false l = false.
Proof.
  intros Hc Hl. destruct (sameListener _ _ _ l) eqn:S; [|reflexivity].
  apply sameListener_callback in S. now apply Hc in Hl.
Qed.

Lemma existsb_none {A} (f : A -> bool) (ls : list A) :
  (forall l, l ∈ ls -> f l = false) -> existsb f ls = false.
Proof.
  induction ls as [|x ls IH]; intros H; simpl; [reflexivity|].
  rewrite (H x) by left. apply IH. intros l Hl. apply H. now right.
Qed.

Lemma removeFirst_none {A} (f : A -> bool) (ls : list A) :
  (forall l, l ∈ ls -> f l = false) -> removeFirst f ls = ls.
Proof.
  induction ls as [|x ls IH]; intros H; simpl; [reflexivity|].
  rewrite (H x) by left. f_equal. apply IH. intros l Hl. apply H. now right.
Qed.

Lemma removeFirst_last {A} (f : A -> bool) (ls : list A) (x : A) :
  (forall l, l ∈ ls -> f l = false) -> f x = true ->
  removeFirst f (ls ++ [x]) = ls.
Proof.
  induction ls as [|y ls IH]; intros H Hx; simpl.
  - now rewrite Hx.
  - rewrite (H y) by left. f_equal. apply IH; [|exact Hx].
    intros l Hl. apply H. now right.
Qed.

Lemma sameListener_scrollListener fn :
  sameListener "scroll" fn false (scrollListener fn) = true.
Proof.
  unfold sameListener. simpl.
  now rewrite !bool_decide_eq_true_2 by reflexivity.
Qed.

(** The listener lists after the registration loop: the scroll listener
    is appended once to the list of every scroll parent, however often the
    parent is listed, and no other list changes. *)
Lemma add_all_exact fn pg0 (ps : list nat) : forall pg seen,
  (forall t, clean fn pg0 t) ->
  (forall t, listenersOf pg t
             = if bool_decide (t ∈ seen)
               then listenersOf pg0 t ++ [scrollListener fn]
               else listenersOf pg0 t) ->
  forall t,
    listenersOf (fold_left (addEventListener "scroll" fn true) ps pg) t
    = if bool_decide (t ∈ seen ++ ps)
      then listenersOf pg0 t ++ [scrollListener fn]
      else listenersOf pg0 t.
Proof.
  induction ps as [|p ps IH]; intros pg seen Hc Hs t; simpl.
  - rewrite app_nil_r. apply Hs.
  - replace (seen ++ p :: ps) with ((seen ++ [p]) ++ ps)
      by (now rewrite <- app_assoc).
    apply IH; [exact Hc|]. clear t. intros t.
    rewrite listenersOf_add.
    destruct (decide (p = t)) as [<-|NE].
    + rewrite (bool_decide_eq_true_2 (p ∈ seen ++ [p]))
        by (apply elem_of_app; right; left).
      rewrite (Hs p). destruct (bool_decide (p ∈ seen)).
      * rewrite existsb_app. simpl.
        rewrite sameListener_scrollListener.
        now rewrite orb_true_r.
      * rewrite existsb_none; [reflexivity|].
        intros l Hl. eapply clean_not_same; [apply Hc|exact Hl].
    + rewrite (Hs t). apply (f_equal (fun b : bool => if b then _ else _)).
      apply bool_decide_ext. rewrite elem_of_app, list_elem_of_singleton.
      split; [tauto|]. intros [H|H]; [exact H|congruence].
Qed.

(** The listener lists after the release loop, run on the lists that the
    registration loop left. *)
Lemma remove_all_exact fn pg0 (all ps : list nat) : forall pg seen,
  (forall t, clean fn pg0 t) ->
  (forall t, t ∈ ps -> t ∈ all) ->
  (forall t, listenersOf pg t
             = if bool_decide (t ∈ seen) then listenersOf pg0 t
               else if bool_decide (t ∈ all)
                    then listenersOf pg0 t ++ [scrollListener fn]
                    else listenersOf pg0 t) ->
  forall t,
    listenersOf (fold_left (removeEventListener "scroll" fn) ps pg) t
    = if bool_decide (t ∈ seen ++ ps) then listenersOf pg0 t
      else if bool_decide (t ∈ all)
           then listenersOf pg0 t ++ [scrollListener fn]
           else listenersOf pg0 t.
Proof.
  induction ps as [|p ps IH]; intros pg seen Hc Hin Hs t; simpl.
  - rewrite app_nil_r. apply Hs.
  - replace (seen ++ p :: ps) with ((seen ++ [p]) ++ ps)
      by (now rewrite <- app_assoc).
    apply IH; [exact Hc|intros t' Ht'; apply Hin; now right|].
    clear t. intros t.
    rewrite listenersOf_remove.
    assert (Hnone : forall l, l ∈ listenersOf pg0 p ->
                      sameListener "scroll" fn false l = false).
    { intros l Hl. eapply clean_not_same; [apply Hc|exact Hl]. }
    destruct (decide (p = t)) as [<-|NE].
    + rewrite (bool_decide_eq_true_2 (p ∈ seen ++ [p]))
        by (apply elem_of_app; right; left).
      rewrite (Hs p). destruct (bool_decide (p ∈ seen)).
      * now apply removeFirst_none.
      * rewrite (bool_decide_eq_true_2 (p ∈ all)) by (apply Hin; left).
        apply removeFirst_last; [exact Hnone|].
        apply sameListener_scrollListener.
    + rewrite (Hs t). apply (f_equal (fun b : bool => if b then _ else _)).
      apply bool_decide_ext. rewrite elem_of_app, list_elem_of_singleton.
      split; [tauto|]. intros [H|H]; [exact H|congruence].
Qed.

Lemma addEventListener_elements ty fn pass pg t :
  elements (addEventListener ty fn pass pg t) = elements pg
  /\ window (addEventListener ty fn pass pg t) = window pg.
Proof. unfold addEventListener. now destruct (existsb _ _). Qed.

Lemma add_all_elements ty fn pass ps : forall pg,
  elements (fold_left (addEventListener ty fn pass) ps pg) = elements pg
  /\ window (fold_left (addEventListener ty fn pass) ps pg) = window pg
  /\ observers (fold_left (addEventListener ty fn pass) ps pg)
     = observers pg.
Proof.
  induction ps as [|p ps IH]; intros pg; simpl; [now repeat split|].
  destruct (IH (addEventListener ty fn pass pg p)) as (-> & -> & ->).
  destruct (addEventListener_elements ty fn pass pg p) as [-> ->].
  now rewrite addEventListener_observers.
Qed.

Lemma remove_all_elements ty fn ps : forall pg,
  elements (fold_left (removeEventListener ty fn) ps pg) = elements pg
  /\ window (fold_left (removeEventListener ty fn) ps pg) = window pg
  /\ observers (fold_left (removeEventListener ty fn) ps pg)
     = observers pg.
Proof.
  induction ps as [|p ps IH]; intros pg; simpl; [now repeat split|].
  now destruct (IH (removeEventListener ty fn pg p)) as (-> & -> & ->).
Qed.

(** [createPopover] of v0.2.0 on a well-formed page, in full. *)
Lemma createPopover_exact (anchor : nat) (opts : V020.PopoverOptions)
    (pg : Page) :
  wellFormed pg ->
  createdBy pg anchor
    (V020.createPopover anchor opts pg).1
    (V020.createPopover anchor opts pg).2.
Proof.
  intros [WL WO]. unfold createdBy, V020.createPopover. cbn zeta.
  cbn [fst snd V020.c_update V020.c_scrollParents V020.c_resizeObserver
       V020.c_anchor V020.element].
  set (pgD := V020.appendChild _ _ _).
  assert (FD : fresh pgD = S (fresh pg)) by (subst pgD; simpl; lia).
  assert (LD : listeners pgD = listeners pg) by reflexivity.
  assert (OD : observers pgD = observers pg) by reflexivity.
  assert (WD : window pgD = window pg) by reflexivity.
  assert (DD : documentElement pgD = documentElement pg) by reflexivity.
  assert (ED : forall k, k <> fresh pg ->
                         elements pgD !! k = elements pg !! k).
  { intros k Hk. subst pgD.
    unfold V020.appendChild, V020.setAncestors, V020.setPlacement,
      V020.setOffset, V020.createElement, set_elements. simpl.
    rewrite !lookup_alter_ne by congruence.
    now rewrite lookup_insert_ne by congruence. }
  clearbody pgD.
  set (fn := fresh pgD) in *.
  set (ro := fresh (allocate 1 pgD)).
  assert (Fro : ro = S fn) by (subst ro fn; simpl; lia).
  set (pgH := observe ro (fresh pg) _).
  assert (LH : forall t, listenersOf pgH t = listenersOf pg t)
    by (intros t; unfold listenersOf; now rewrite <- LD).
  assert (EH : elements pgH = elements pgD) by reflexivity.
  assert (WH : window pgH = window pgD) by reflexivity.
  assert (DH : documentElement pgH = documentElement pgD) by reflexivity.
  assert (OH1 : forall o, o <> ro -> observers pgH !! o = observers pg !! o).
  { intros o Ho. subst pgH. unfold observe, set_observers. simpl.
    rewrite !lookup_alter_ne by congruence.
    rewrite lookup_insert_ne by congruence. now rewrite OD. }
  assert (OH2 : observers pgH !! ro
                = Some {| ro_callback := fn;
                          observationTargets :=
                            filter (fun t => t <> fresh pg) [anchor]
                            ++ [fresh pg] |}).
  { subst pgH. unfold observe, set_observers. simpl.
    rewrite !lookup_alter_eq, lookup_insert_eq. reflexivity. }
  clearbody pgH.
  assert (Hc : forall t, clean fn pg t).
  { intros t l Hl. apply WL in Hl. lia. }
  destruct (add_all_elements "scroll" fn true (getScrollParents pgH anchor)
              pgH) as (EA & WA & OA).
  split; [reflexivity|]. split; [reflexivity|]. split; [exact Hc|].
  split; [intros o ob Hob; apply WO in Hob; lia|].
  split.
  { unfold getScrollParents. rewrite DH, DD. eauto. }
  split.
  { intros t.
    rewrite (add_all_exact fn pg (getScrollParents pgH anchor) pgH [] Hc);
      [reflexivity|].
    intros t'. simpl. apply LH. }
  split; [intros o Ho; rewrite OA; now apply OH1|].
  split; [rewrite OA; exact OH2|].
  split; [intros k Hk; rewrite EA, EH; now apply ED|].
  now rewrite WA, WH.
Qed.

Lemma clean_filter_nil fn pg t :
  clean fn pg t ->
  filter (fun l => callback l = fn) (listenersOf pg t) = [].
Proof.
  intros Hc. destruct (filter _ _) as [|l ?] eqn:F; [reflexivity|].
  assert (Hl : l ∈ filter (fun l => callback l = fn) (listenersOf pg t))
    by (rewrite F; left).
  apply list_elem_of_filter in Hl as [E Hl]. now apply Hc in Hl.
Qed.

Lemma invoked_SizeChange pg o ob target :
  observers pg !! o = Some ob -> target ∈ observationTargets ob ->
  ro_callback ob ∈ invoked pg (SizeChange target).
Proof.
  intros Hob Ht. simpl. apply list_elem_of_In, in_map_iff.
  exists (o, ob). split; [reflexivity|].
  apply list_elem_of_In, list_elem_of_filter. split; [exact Ht|].
  now apply elem_of_map_to_list.
Qed.

Lemma invoked_ScrollSignal pg t l path :
  l ∈ listenersOf pg t -> ev_type l = "scroll"%string -> t ∈ path ->
  callback l ∈ invoked pg (ScrollSignal path).
Proof.
  intros Hl Hty Ht. simpl. apply list_elem_of_In, in_concat.
  exists (map callback
            (filter (fun l => ev_type l = "scroll"%string)
               (listenersOf pg t))).
  split.
  - apply in_map_iff. exists t. split; [reflexivity|].
    now apply list_elem_of_In.
  - apply in_map, list_elem_of_In, list_elem_of_filter. now split.
Qed.

(** The registrations, for any controller and page that are as
    [createPopover] leaves them. *)
Lemma createdBy_registered pg anchor c created :
  createdBy pg anchor c created ->
  (exists front, V020.c_scrollParents c = front ++ [documentElement pg])
  /\ (forall t, t ∈ V020.c_scrollParents c ->
        length (filter (fun l => callback l = V020.c_update c)
                  (listenersOf created t)) = 1%nat)
  /\ (forall t, t ∉ V020.c_scrollParents c ->
                clean (V020.c_update c) created t)
  /\ (forall t path, t ∈ V020.c_scrollParents c -> t ∈ path ->
        V020.c_update c ∈ invoked created (ScrollSignal path))
  /\ V020.c_update c ∈ invoked created (SizeChange anchor)
  /\ V020.c_update c ∈ invoked created (SizeChange (V020.element c)).
Proof.
  intros (Ea & Ee & Hc & _ & Hf & HL & _ & HO & _ & _).
  split; [exact Hf|]. split; [|split; [|split; [|split]]].
  - intros t Ht. rewrite HL, bool_decide_eq_true_2 by exact Ht.
    rewrite filter_app, (clean_filter_nil _ _ _ (Hc t)).
    now rewrite filter_cons_True by reflexivity.
  - intros t Ht l. rewrite HL, bool_decide_eq_false_2 by exact Ht.
    apply Hc.
  - intros t path Ht Hp.
    apply (invoked_ScrollSignal created t (scrollListener (V020.c_update c)));
      [|reflexivity|exact Hp].
    rewrite HL, bool_decide_eq_true_2 by exact Ht.
    apply elem_of_app. right. left.
  - apply (invoked_SizeChange created _ _ anchor HO). simpl.
    destruct (decide (anchor = fresh pg)) as [->|NE].
    + apply elem_of_app. right. left.
    + apply elem_of_app. left. rewrite filter_cons_True by exact NE. left.
  - apply (invoked_SizeChange created _ _ (V020.element c) HO). simpl.
    rewrite Ee. apply elem_of_app. right. left.
Qed.

(** X5. What [createPopover] of v0.2.0 registers on a well-formed page.
    The scroll parents end with the document element, so there is always at
    least one; every scroll parent holds [update] exactly once, also one
    that is listed twice, and no other element holds it; a scroll signal
    that passes a scroll parent invokes [update], and so does a size change
    of the anchor or of the panel. *)
Theorem createPopover_registers
    (pg : Page) (anchor : nat) (opts : V020.PopoverOptions) :
  wellFormed pg ->
  let c := (V020.createPopover anchor opts pg).1 in
  let created := (V020.createPopover anchor opts pg).2 in
  (exists front, V020.c_scrollParents c = front ++ [documentElement pg])
  /\ (forall t, t ∈ V020.c_scrollParents c ->
        length (filter (fun l => callback l = V020.c_update c)
                  (listenersOf created t)) = 1%nat)
  /\ (forall t, t ∉ V020.c_scrollParents c ->
                clean (V020.c_update c) created t)
  /\ (forall t path, t ∈ V020.c_scrollParents c -> t ∈ path ->
        V020.c_update c ∈ invoked created (ScrollSignal path))
  /\ V020.c_update c ∈ invoked created (SizeChange anchor)
  /\ V020.c_update c ∈ invoked created (SizeChange (V020.element c)).
Proof.
  intros WF.
  exact (createdBy_registered pg anchor _ _
           (createPopover_exact anchor opts pg WF)).
Qed.

(** The hypothesis of the theorems about [page0]. *)
Ltac page0_wellFormed :=
  split;
  [ intros t l; unfold listenersOf; simpl;
    destruct (decide (t = 2%nat)) as [->|NE];
    [ rewrite lookup_singleton_eq; simpl; intros Hl;
      apply list_elem_of_singleton in Hl as ->; simpl; lia
    | rewrite lookup_singleton_ne by congruence; simpl;
      intros Hl; inversion Hl ]
  | intros o ob; simpl; rewrite lookup_empty; discriminate ].

(** X5 on [page0]: the scroll parents of the anchor are the container 2
    and the document element 0, and a scroll of the document invokes
    [update]. *)
Lemma createPopover_registers_witness :
  V020.c_scrollParents controller0 = [2; 0]%nat
  /\ V020.c_update controller0 ∈ invoked page1 (ScrollSignal [0%nat]).
Proof.
  assert (E : V020.c_scrollParents controller0 = [2; 0]%nat)
    by (vm_compute; reflexivity).
  split; [exact E|].
  destruct (createPopover_registers page0 3 noOptions)
    as (_ & _ & _ & H & _); [page0_wellFormed|].
  apply (H 0%nat [0%nat]); [|left].
  change (0%nat ∈ V020.c_scrollParents controller0).
  rewrite E. right. left.
Defined.

Lemma update_frame c pg :
  window (V020.update c pg) = window pg
  /\ forall k, k <> V020.element c ->
               elements (V020.update c pg) !! k = elements pg !! k.
Proof.
  unfold V020.update.
  destruct (elements pg !! V020.c_anchor c); [|now split].
  destruct (elements pg !! V020.element c); [|now split].
  destruct (V020.findBestPlacement _ _ _ _ _); [|now split].
  split; [reflexivity|]. intros k Hk.
  unfold V020.setPlacement. simpl. now rewrite lookup_alter_ne by congruence.
Qed.

Lemma calls_frame c fns : forall pg,
  window (fold_left (V020.call c) fns pg) = window pg
  /\ forall k, k <> V020.element c ->
               elements (fold_left (V020.call c) fns pg) !! k
               = elements pg !! k.
Proof.
  induction fns as [|fn fns IH]; intros pg; simpl; [now split|].
  destruct (IH (V020.call c pg fn)) as [-> HE].
  assert (H : window (V020.call c pg fn) = window pg
              /\ forall k, k <> V020.element c ->
                   elements (V020.call c pg fn) !! k = elements pg !! k).
  { unfold V020.call. destruct (decide _); [apply update_frame|now split]. }
  destruct H as [-> HE']. split; [reflexivity|].
  intros k Hk. now rewrite HE, HE'.
Qed.

(** Signals write to the panel only. *)
Lemma signals_frame c sigs : forall pg,
  window (fold_left (V020.signal c) sigs pg) = window pg
  /\ forall k, k <> V020.element c ->
               elements (fold_left (V020.signal c) sigs pg) !! k
               = elements pg !! k.
Proof.
  induction sigs as [|sig sigs IH]; intros pg; simpl; [now split|].
  destruct (IH (V020.signal c pg sig)) as [-> HE].
  destruct (calls_frame c (invoked pg sig) pg) as [HW HE'].
  split; [exact HW|]. intros k Hk. rewrite HE by exact Hk.
  now apply HE'.
Qed.

(** Creation, signals and [destroy()], for any controller and page that are
    as [createPopover] leaves them. *)
Lemma createdBy_restored pg anchor c created (before : list Signal) :
  createdBy pg anchor c created ->
  let destroyed :=
    V020.destroy c (fold_left (V020.signal c) before created) in
  (forall t, listenersOf destroyed t = listenersOf pg t)
  /\ (forall o, o <> V020.c_resizeObserver c ->
                observers destroyed !! o = observers pg !! o)
  /\ observers destroyed !! V020.c_resizeObserver c
     = Some {| ro_callback := V020.c_update c; observationTargets := [] |}
  /\ (forall k, k <> V020.element c -> k <> anchor ->
                elements destroyed !! k = elements pg !! k)
  /\ window destroyed = window pg.
Proof.
  intros (Ea & Ee & Hc & _ & Hf & HL & HO1 & HO2 & HE & HW) destroyed.
  subst destroyed. unfold V020.destroy.
  set (pgS := fold_left (V020.signal c) before created).
  destruct (signals_registry c before created) as [SL SO].
  destruct (signals_frame c before created) as [SW SE].
  fold pgS in SL, SO, SW, SE.
  set (pgB := disconnect (V020.c_resizeObserver c) pgS).
  destruct (remove_all_elements "scroll" (V020.c_update c)
              (V020.c_scrollParents c) pgB) as (RE & RW & RO).
  split; [|split; [|split; [|split]]].
  - intros t.
    change (listenersOf
              (fold_left (removeEventListener "scroll" (V020.c_update c))
                 (V020.c_scrollParents c) pgB) t = listenersOf pg t).
    rewrite (remove_all_exact (V020.c_update c) pg (V020.c_scrollParents c)
               (V020.c_scrollParents c) pgB [] Hc); [|trivial|].
    + simpl. now destruct (bool_decide _).
    + intros t'. simpl. rewrite <- HL. unfold listenersOf.
      change (listeners pgB) with (listeners pgS). now rewrite SL.
  - intros o Ho. simpl. rewrite RO. subst pgB. unfold disconnect. simpl.
    rewrite lookup_alter_ne by congruence. rewrite SO. now apply HO1.
  - simpl. rewrite RO. subst pgB. unfold disconnect. simpl.
    now rewrite lookup_alter_eq, SO, HO2.
  - intros k Hk _. unfold V020.remove, V020.setAncestors. simpl.
    rewrite lookup_alter_ne by congruence. rewrite RE.
    change (elements pgB) with (elements pgS).
    rewrite SE by exact Hk. apply HE. congruence.
  - simpl. rewrite RW. change (window pgB) with (window pgS).
    now rewrite SW.
Qed.

(** X6. Creating a controller of v0.2.0 on a well-formed page, letting any
    signals pass and destroying it gives the page back but for the panel,
    the anchor and the observer: every element has the listener list it had,
    in the same order; every other observer is as it was, and so is every
    element other than the panel and the anchor (whose id [createPopover]
    sets when it has none, and [destroy()] leaves); the viewport is
    untouched; and the controller's observer is left behind, observing
    nothing. *)
Theorem create_destroy_restores
    (pg : Page) (anchor : nat) (opts : V020.PopoverOptions)
    (before : list Signal) :
  wellFormed pg ->
  let c := (V020.createPopover anchor opts pg).1 in
  let created := (V020.createPopover anchor opts pg).2 in
  let destroyed :=
    V020.destroy c (fold_left (V020.signal c) before created) in
  (forall t, listenersOf destroyed t = listenersOf pg t)
  /\ (forall o, o <> V020.c_resizeObserver c ->
                observers destroyed !! o = observers pg !! o)
  /\ observers destroyed !! V020.c_resizeObserver c
     = Some {| ro_callback := V020.c_update c; observationTargets := [] |}
  /\ (forall k, k <> V020.element c -> k <> anchor ->
                elements destroyed !! k = elements pg !! k)
  /\ window destroyed = window pg.
Proof.
  intros WF.
  exact (createdBy_restored pg anchor _ _ before
           (createPopover_exact anchor opts pg WF)).
Qed.

(** X6 on [page0]: after a scroll, a size change and [destroy()], the
    container 2 holds the one foreign listener it held before. *)
Lemma create_destroy_restores_witness :
  listenersOf
    (V020.destroy controller0
       (fold_left (V020.signal controller0)
          [ScrollSignal [2; 0]%nat; SizeChange 3] page1)) 2%nat
  = listenersOf page0 2%nat.
Proof.
  destruct (create_destroy_restores page0 3 noOptions
              [ScrollSignal [2; 0]%nat; SizeChange 3]) as (H & _);
    [page0_wellFormed|].
  apply H.
Defined.

(** X7. The panel as [createPopover] of v0.2.0 leaves it, before any
    [update()]: a new element under the body that already carries the
    preferred placement, bottom when the option is omitted, as custom
    property and as data attribute, and the offset, 8 when omitted; explicit
    fallbacks are taken as they are given. *)
Theorem createPopover_panel
    (pg : Page) (anchor : nat) (opts : V020.PopoverOptions) :
  let c := (V020.createPopover anchor opts pg).1 in
  let created := (V020.createPopover anchor opts pg).2 in
  V020.element c = fresh pg
  /\ V020.c_placement c = default Bottom (V020.opt_placement opts)
  /\ V020.c_fallbacks c
     = default (V020.defaultFallbacks (V020.c_placement c))
         (V020.opt_fallbacks opts)
  /\ exists e chain,
       elements created !! V020.element c = Some e
       /\ style_placement e = Some (V020.c_placement c)
       /\ data_placement e = Some (V020.c_placement c)
       /\ style_offset e = Some (default 8 (V020.opt_offset opts))
       /\ ancestors e = body pg :: chain.
Proof.
  unfold V020.createPopover. cbn zeta.
  cbn [fst snd V020.c_placement V020.c_fallbacks V020.element].
  split; [reflexivity|]. split; [reflexivity|]. split; [reflexivity|].
  set (pgD := V020.appendChild _ _ _).
  assert (ED : exists e chain,
             elements pgD !! fresh pg = Some e
             /\ style_placement e
                = Some (default Bottom (V020.opt_placement opts))
             /\ data_placement e
                = Some (default Bottom (V020.opt_placement opts))
             /\ style_offset e = Some (default 8 (V020.opt_offset opts))
             /\ ancestors e = body pg :: chain).
  { subst pgD.
    unfold V020.appendChild, V020.setAncestors, V020.setPlacement,
      V020.setOffset, V020.createElement, set_elements.
    cbn [elements allocate body].
    rewrite !lookup_alter_eq, lookup_insert_eq.
    eexists _, _. repeat split. }
  clearbody pgD.
  set (pgH := observe _ _ _).
  assert (EH : elements pgH = elements pgD) by reflexivity.
  clearbody pgH.
  destruct (add_all_elements "scroll" (fresh pgD) true
              (getScrollParents pgH anchor) pgH) as (-> & _ & _).
  rewrite EH. exact ED.
Qed.

(** ** The anchor's id *)

(** X8. [ensureAnchorId]: the value returned is the anchor's id after the
    call, which is never empty; an id that is present is kept, a missing one
    is replaced by "popover-anchor-" followed by the UUID; and a second
    call, whatever UUID it would draw, changes nothing. *)
Theorem ensureAnchorId_stable (id uuid uuid' : string) :
  let after := (ensureAnchorId id uuid).1 in
  (ensureAnchorId id uuid).2 = after
  /\ after <> ""%string
  /\ (id <> ""%string -> after = id)
  /\ (id = ""%string -> after = ("popover-anchor-" +:+ uuid)%string)
  /\ ensureAnchorId after uuid' = (after, after).
Proof.
  unfold ensureAnchorId. simpl.
  destruct (bool_decide (id = ""%string)) eqn:E.
  - apply bool_decide_eq_true in E.
    split; [reflexivity|]. split; [discriminate|].
    split; [congruence|]. split; [reflexivity|].
    reflexivity.
  - apply bool_decide_eq_false in E.
    split; [reflexivity|]. split; [exact E|].
    split; [reflexivity|]. split; [congruence|].
    now rewrite bool_decide_eq_false_2 by exact E.
Qed.

(** X8 for an anchor without id and for one with the id "menu". *)
Lemma ensureAnchorId_stable_witness :
  (ensureAnchorId "" "1b9d6bcd").1 = "popover-anchor-1b9d6bcd"%string
  /\ (ensureAnchorId "menu" "1b9d6bcd").1 = "menu"%string.
Proof.
  destruct (ensureAnchorId_stable "" "1b9d6bcd" "") as (_ & _ & _ & H & _).
  destruct (ensureAnchorId_stable "menu" "1b9d6bcd" "") as (_ & _ & H' & _).
  split; [now apply H|apply H'; discriminate].
Defined.

(** ** v0.1.2: what [computeBest] returns *)

(** X9. [computeBest] returns the Side with the highest raw score, the
    first of the enumeration top, bottom, left, right among equals, and the
    [placement] option plays no part in it: the result is the same for every
    preference sequence, the empty one included. In particular a Side whose
    raw score is above every other one is returned, listed or not. *)
Theorem computeBest_ignores_placement
    (w : Window) (anchor pop : HTMLElement)
    (placement : V012.PlacementOption) (prefs : gmap Placement Q) :
  let size :=
    {| V012.width := offsetWidth pop; V012.height := offsetHeight pop |} in
  let raw p := V012.score (scored w anchor size prefs p) in
  let result := V012.computeBest w anchor pop placement prefs in
  result = V012.computeBest w anchor pop (V012.Many []) prefs
  /\ (exists s,
        result = Some s
        /\ (forall p, raw p <= raw s)
        /\ (forall p, (enumIndex p < enumIndex s)%nat -> raw p < raw s))
  /\ (forall p, (forall q, q <> p -> raw q < raw p) -> result = Some p).
Proof.
  intros size raw result. subst result.
  rewrite !computeBest_is_first_of_computeScores. fold size.
  split; [reflexivity|].
  pose proof (computeScores_Permutation w anchor size prefs) as HP.
  pose proof (computeScores_ranked w anchor size prefs) as HS.
  assert (HE : forall s, s ∈ V012.computeScores w anchor size prefs ->
                 s = scored w anchor size prefs (V012.placement s))
    by apply computeScores_entry.
  destruct (V012.computeScores w anchor size prefs) as [|h rest].
  { apply Permutation_length in HP. discriminate. }
  simpl.
  assert (Hin : forall p, scored w anchor size prefs p ∈ h :: rest).
  { intros p. rewrite HP. apply list_elem_of_In, in_map.
    destruct p; simpl; tauto. }
  assert (Hh : V012.score h = raw (V012.placement h)).
  { unfold raw. now rewrite <- (HE h) by left. }
  assert (Hp : forall p, V012.placement (scored w anchor size prefs p) = p)
    by (now intros []).
  assert (Hmax : forall p, raw p <= raw (V012.placement h)).
  { intros p. rewrite <- Hh.
    apply (ranked_head h rest _ HS (Hin p)). }
  split.
  - exists (V012.placement h). split; [reflexivity|]. split; [exact Hmax|].
    intros p I. rewrite <- Hh.
    apply (ranked_head h rest _ HS (Hin p)). now rewrite Hp.
  - intros p Hbest. f_equal.
    destruct (decide (V012.placement h = p)) as [E|NE]; [exact E|].
    exfalso. pose proof (Hbest _ NE) as L. pose proof (Hmax p) as M.
    apply (Qlt_not_le _ _ L M).
Qed.

(** X9 in the first scenario: right has the highest raw score, and it is
    returned although bottom alone is preferred. *)
Lemma computeBest_ignores_placement_witness :
  V012.computeBest win800x600 anchor500 panel120x40 (V012.One Bottom) ∅
  = Some Right.
Proof.
  destruct (computeBest_ignores_placement win800x600 anchor500 panel120x40
              (V012.One Bottom) ∅) as (_ & _ & H).
  apply H. intros q Hq. destruct q; try congruence; vm_compute; reflexivity.
Defined.

(** X10. Overflow against fit. The overflow and the misalignment of an
    entry are never negative. For a panel of the size [computeBest] measures,
    the overflow of a Side is zero exactly when the fit test of v0.2.0,
    [space >= required], holds for that Side; where it does not hold, the
    overflow is the dimension less the space. *)
Theorem overflow_zero_iff_fits
    (w : Window) (anchor pop : HTMLElement)
    (prefs : gmap Placement Q) (p : Placement) :
  let size :=
    {| V012.width := offsetWidth pop; V012.height := offsetHeight pop |} in
  let e := scored w anchor size prefs p in
  0 <= V012.overflow e
  /\ 0 <= V012.misalign e
  /\ (V012.overflow e == 0
      <-> geq (V020.getAvailableSpace w anchor p) (V020.requiredFor pop p)
          = true)
  /\ (geq (V020.getAvailableSpace w anchor p) (V020.requiredFor pop p)
      = false ->
      V012.overflow e
      == V020.requiredFor pop p - V020.getAvailableSpace w anchor p).
Proof.
  intros size e.
  destruct (scored_fields w anchor size prefs p)
    as (_ & Hs & Ho & Hm & _).
  fold e in Hs, Ho, Hm.
  assert (Hd : dimension size p = V020.requiredFor pop p) by (now destruct p).
  rewrite Hs, Hd in Ho.
  set (space := V020.getAvailableSpace w anchor p) in *.
  set (required := V020.requiredFor pop p) in *.
  pose proof (Q.le_max_r (required - space) 0) as Hr.
  split; [rewrite Ho; exact Hr|].
  split; [rewrite Hm; apply Math_abs_nonneg|].
  split.
  - rewrite geq_spec, Ho. split.
    + intros E. pose proof (Q.le_max_l (required - space) 0) as Hl. lra.
    + intros L. apply Q.max_r. lra.
  - intros G. apply geq_false in G. rewrite Ho. apply Q.max_l. lra.
Qed.

(** X10 for the left Side of the first scenario: 100 of space for a panel
    120 wide, an overflow of 20. *)
Lemma overflow_zero_iff_fits_witness :
  V012.overflow
    (scored win800x600 anchor500
       {| V012.width := 120; V012.height := 40 |} ∅ Left)
  == 120 - 100.
Proof.
  destruct (overflow_zero_iff_fits win800x600 anchor500 panel120x40 ∅ Left)
    as (_ & _ & _ & H).
  apply H. vm_compute. reflexivity.
Defined.

(** X11. The bias of a Side reaches the entry of that Side only: setting
    the bias of [p] to [b] leaves the space, the overflow and the
    misalignment of [p] as they were, makes [b] its preference and
    [space - overflow - misalign + b] its score, and leaves the entry of
    every other Side as it was. *)
Theorem bias_is_local
    (w : Window) (anchor : HTMLElement) (size : V012.Size)
    (prefs : gmap Placement Q) (p : Placement) (b : Q) :
  let e := scored w anchor size prefs p in
  let e' := scored w anchor size (<[p := b]> prefs) p in
  V012.placement e' = V012.placement e
  /\ V012.space e' = V012.space e
  /\ V012.overflow e' = V012.overflow e
  /\ V012.misalign e' = V012.misalign e
  /\ V012.preference e' = b
  /\ V012.score e'
     = V012.space e - V012.overflow e - V012.misalign e + b
  /\ (forall q, q <> p ->
        scored w anchor size (<[p := b]> prefs) q
        = scored w anchor size prefs q).
Proof.
  intros e e'. subst e e'.
  assert (B : V012.bias (<[p := b]> prefs) p = b).
  { unfold V012.bias. now rewrite lookup_insert_eq. }
  repeat split;
    try (destruct p; unfold scored, V012.rate, V012.set_score;
         cbn [V012.score V012.space V012.overflow V012.misalign
              V012.preference V012.placement V012.candidate];
         try rewrite B; reflexivity).
  intros q Hq. unfold scored, V012.rate, V012.set_score.
  assert (B' : V012.bias (<[p := b]> prefs) q = V012.bias prefs q).
  { unfold V012.bias. now rewrite lookup_insert_ne by congruence. }
  destruct q; simpl; now rewrite B'.
Qed.

(** ** v0.1.2: the controller *)

Lemma update012_registry c pg :
  listeners (V012Controller.update c pg) = listeners pg
  /\ observers (V012Controller.update c pg) = observers pg.
Proof.
  unfold V012Controller.update.
  destruct (elements pg !! V012Controller.c_anchor c); [|now split].
  destruct (elements pg !! V012Controller.element c); [|now split].
  destruct (V012.computeBest _ _ _ _ _); now split.
Qed.

Lemma calls012_registry c fns : forall pg,
  listeners (fold_left (V012Controller.call c) fns pg) = listeners pg
  /\ observers (fold_left (V012Controller.call c) fns pg) = observers pg.
Proof.
  induction fns as [|fn fns IH]; intros pg; simpl; [now split|].
  destruct (IH (V012Controller.call c pg fn)) as [-> ->].
  unfold V012Controller.call.
  destruct (decide _); [apply update012_registry|].
  destruct (decide _); [apply update012_registry|now split].
Qed.

Lemma signals012_registry c sigs : forall pg,
  listeners (fold_left (V012Controller.signal c) sigs pg) = listeners pg
  /\ observers (fold_left (V012Controller.signal c) sigs pg)
     = observers pg.
Proof.
  induction sigs as [|sig sigs IH]; intros pg; simpl; [now split|].
  destruct (IH (V012Controller.signal c pg sig)) as [-> ->].
  apply calls012_registry.
Qed.

Lemma remove_clean_other g fn pg t t' :
  clean g pg t' -> clean g (removeEventListener "scroll" fn pg t) t'.
Proof.
  intros H l. rewrite listenersOf_remove.
  destruct (decide (t = t')) as [->|]; [|apply H].
  intros Hl. apply removeFirst_subset in Hl. now apply H.
Qed.

Lemma remove_all_clean_other g fn ps : forall pg,
  (forall t, clean g pg t) ->
  forall t, clean g (fold_left (removeEventListener "scroll" fn) ps pg) t.
Proof.
  induction ps as [|p ps IH]; intros pg H; simpl; [exact H|].
  apply IH. intros t. apply remove_clean_other, H.
Qed.

(** [createPopover] of v0.1.2 on a well-formed page: where [update] and
    the arrow function around it are registered. *)
Lemma createPopover012_registry (anchor : nat)
    (opts : V012Controller.PopoverOptions) (pg : Page) :
  wellFormed pg ->
  let c := (V012Controller.createPopover anchor opts pg).1 in
  let created := (V012Controller.createPopover anchor opts pg).2 in
  V012Controller.element c = fresh pg
  /\ (forall t, tidy (V012Controller.c_update c) created t)
  /\ (forall t, t ∉ V012Controller.c_scrollParents c ->
                clean (V012Controller.c_update c) created t)
  /\ (forall t, t ∈ V012Controller.c_scrollParents c ->
        scrollListener (V012Controller.c_update c) ∈ listenersOf created t)
  /\ (forall t, clean (V012Controller.c_onResize c) created t)
  /\ (forall o ob, observers created !! o = Some ob ->
        ro_callback ob <> V012Controller.c_update c
        /\ (ro_callback ob = V012Controller.c_onResize c ->
            o = V012Controller.c_ro c))
  /\ observers created !! V012Controller.c_ro c
     = Some {| ro_callback := V012Controller.c_onResize c;
               observationTargets := [anchor] |}.
Proof.
  intros [WL WO]. unfold V012Controller.createPopover. cbn zeta.
  cbn [fst snd V012Controller.c_update V012Controller.c_scrollParents
       V012Controller.c_ro V012Controller.c_onResize
       V012Controller.element].
  set (pgD := V020.appendChild _ _ _).
  assert (HD : fresh pgD = S (fresh pg)
               /\ listeners pgD = listeners pg
               /\ observers pgD = observers pg).
  { subst pgD. destruct (default _ _) as [?|[|? ?]];
      (split; [simpl; lia|split; reflexivity]). }
  destruct HD as (FD & LD & OD). clearbody pgD.
  set (fn := fresh pgD) in *.
  set (g := fresh (allocate 1 pgD)).
  assert (Fg : g = S fn) by (subst g fn; simpl; lia).
  set (ro := fresh (allocate 1 (allocate 1 pgD))).
  assert (Fro : ro = S g) by (subst ro g; simpl; lia).
  set (pgH := observe ro anchor _).
  assert (LH : forall t, listenersOf pgH t = listenersOf pg t)
    by (intros t; unfold listenersOf; now rewrite <- LD).
  assert (OH1 : forall o, o <> ro -> observers pgH !! o = observers pg !! o).
  { intros o Ho. subst pgH. unfold observe, set_observers. simpl.
    rewrite lookup_alter_ne by congruence.
    rewrite lookup_insert_ne by congruence. now rewrite OD. }
  assert (OH2 : observers pgH !! ro
                = Some {| ro_callback := g;
                          observationTargets := [anchor] |}).
  { subst pgH. unfold observe, set_observers. simpl.
    rewrite lookup_alter_eq, lookup_insert_eq. reflexivity. }
  clearbody pgH.
  assert (Hc : forall t, clean fn pg t).
  { intros t l Hl. apply WL in Hl. lia. }
  assert (CH : forall t, clean fn pgH t).
  { intros t l. rewrite LH. apply Hc. }
  set (ps := getScrollParents pgH anchor).
  destruct (add_all fn ps pgH) as (T & C & O).
  { intros t. apply clean_tidy, CH. }
  assert (X : forall t,
            listenersOf (fold_left (addEventListener "scroll" fn true) ps pgH)
              t
            = if bool_decide (t ∈ ps)
              then listenersOf pg t ++ [scrollListener fn]
              else listenersOf pg t).
  { intros t. rewrite (add_all_exact fn pg ps pgH [] Hc); [reflexivity|].
    intros t'. simpl. apply LH. }
  split; [reflexivity|]. split; [exact T|].
  split; [intros t Ht; apply C; [exact Ht|apply CH]|].
  split.
  { intros t Ht. rewrite X, bool_decide_eq_true_2 by exact Ht.
    apply elem_of_app. right. left. }
  split.
  { intros t l. rewrite X. intros Hl.
    assert (Hl' : l ∈ listenersOf pg t \/ l = scrollListener fn).
    { destruct (bool_decide _); [|now left].
      apply elem_of_app in Hl as [Hl|Hl]; [now left|].
      apply list_elem_of_singleton in Hl. now right. }
    destruct Hl' as [Hl'| ->]; [apply WL in Hl'; lia|simpl; lia]. }
  split.
  { intros o ob. rewrite O. intros Hob.
    destruct (decide (o = ro)) as [->|NE].
    - rewrite OH2 in Hob. injection Hob as <-. simpl. split; [lia|trivial].
    - rewrite OH1 in Hob by exact NE. apply WO in Hob. split; lia. }
  rewrite O. exact OH2.
Qed.

(** Signals, [destroy()] of v0.1.2 and signals again, for any controller
    registered as [createPopover] registers it. *)
Lemma destroyed012_released (c : V012Controller.PopoverController)
    (created : Page) (before after : list Signal) (sig : Signal) :
  ((forall t, tidy (V012Controller.c_update c) created t)
   /\ (forall t, t ∉ V012Controller.c_scrollParents c ->
                 clean (V012Controller.c_update c) created t)
   /\ (forall t, clean (V012Controller.c_onResize c) created t)
   /\ (forall o ob, observers created !! o = Some ob ->
         ro_callback ob <> V012Controller.c_update c
         /\ (ro_callback ob = V012Controller.c_onResize c ->
             o = V012Controller.c_ro c))) ->
  let destroyed :=
    V012Controller.destroy c
      (fold_left (V012Controller.signal c) before created) in
  released (V012Controller.c_update c) destroyed
  /\ released (V012Controller.c_onResize c) destroyed
  /\ (V012Controller.c_update c
      ∉ invoked (fold_left (V012Controller.signal c) after destroyed) sig)
  /\ (V012Controller.c_onResize c
      ∉ invoked (fold_left (V012Controller.signal c) after destroyed) sig).
Proof.
  intros (T & C & G & O) destroyed.
  destruct (signals012_registry c before created) as [EL EO].
  set (pgS := fold_left (V012Controller.signal c) before created) in *.
  set (pgB := disconnect (V012Controller.c_ro c) pgS).
  assert (LB : forall t, listenersOf pgB t = listenersOf created t).
  { intros t. unfold listenersOf.
    change (listeners pgB) with (listeners pgS). now rewrite EL. }
  set (fn := V012Controller.c_update c) in *.
  set (g := V012Controller.c_onResize c) in *.
  destruct (remove_all fn (V012Controller.c_scrollParents c) pgB)
    as (_ & C' & K & RO).
  { intros t. unfold tidy. rewrite LB. apply T. }
  assert (OB : forall o ob, observers pgB !! o = Some ob ->
                 ro_callback ob <> fn
                 /\ (ro_callback ob = g -> observationTargets ob = [])).
  { intros o ob. subst pgB. unfold disconnect. simpl.
    rewrite lookup_alter_Some, EO.
    intros [[<- (x & Hx & ->)]|[NE Hob]]; simpl.
    - split; [now apply (O _ _ Hx)|reflexivity].
    - split; [now apply (O _ _ Hob)|].
      intros E. exfalso. apply NE. symmetry. now apply (O _ _ Hob). }
  assert (R1 : released fn destroyed).
  { apply (released_registry fn
             (fold_left (removeEventListener "scroll" fn)
                (V012Controller.c_scrollParents c) pgB));
      [reflexivity|reflexivity|].
    split.
    - intros t.
      destruct (decide (t ∈ V012Controller.c_scrollParents c)) as [Hin|Hin].
      + now apply C'.
      + apply K. intros l. rewrite LB. now apply C.
    - intros o ob. rewrite RO. intros Hob E.
      now apply OB in Hob as [Hob _]. }
  assert (R2 : released g destroyed).
  { apply (released_registry g
             (fold_left (removeEventListener "scroll" fn)
                (V012Controller.c_scrollParents c) pgB));
      [reflexivity|reflexivity|].
    split.
    - apply remove_all_clean_other. intros t l. rewrite LB. apply G.
    - intros o ob. rewrite RO. intros Hob E.
      now apply OB in Hob as [_ Hob]; apply Hob. }
  destruct (signals012_registry c after destroyed) as [EL' EO'].
  split; [exact R1|]. split; [exact R2|].
  split; apply released_invoked;
    now apply (released_registry _ destroyed).
Qed.

(** X12. [destroy()] of v0.1.2 releases everything as well. On a
    well-formed page, after [createPopover], any signals and [destroy()], no
    element holds a listener for [update] or for the arrow function given to
    the resize observer, that observer observes nothing, and no later signal
    invokes either function. *)
Theorem destroy012_releases_observers
    (pg : Page) (anchor : nat) (opts : V012Controller.PopoverOptions)
    (before after : list Signal) (sig : Signal) :
  wellFormed pg ->
  let c := (V012Controller.createPopover anchor opts pg).1 in
  let created := (V012Controller.createPopover anchor opts pg).2 in
  let destroyed :=
    V012Controller.destroy c
      (fold_left (V012Controller.signal c) before created) in
  released (V012Controller.c_update c) destroyed
  /\ released (V012Controller.c_onResize c) destroyed
  /\ (V012Controller.c_update c
      ∉ invoked (fold_left (V012Controller.signal c) after destroyed) sig)
  /\ (V012Controller.c_onResize c
      ∉ invoked (fold_left (V012Controller.signal c) after destroyed) sig).
Proof.
  intros WF.
  destruct (createPopover012_registry anchor opts pg WF)
    as (_ & T & C & _ & G & O & _).
  exact (destroyed012_released _ _ before after sig
           (conj T (conj C (conj G O)))).
Qed.

(** X12 on [page0]: after a scroll, [destroy()] and a size change of the
    anchor, a scroll of the container and the document invokes neither
    [update] nor the arrow function. *)
Lemma destroy012_releases_observers_witness :
  let destroyed :=
    V012Controller.destroy controller012
      (fold_left (V012Controller.signal controller012)
         [ScrollSignal [2; 0]%nat] page012) in
  (V012Controller.c_update controller012
   ∉ invoked
       (fold_left (V012Controller.signal controller012) [SizeChange 3]
          destroyed)
       (ScrollSignal [2; 0]%nat))
  /\ (V012Controller.c_onResize controller012
      ∉ invoked
          (fold_left (V012Controller.signal controller012) [SizeChange 3]
             destroyed)
          (SizeChange 3)).
Proof.
  destruct (destroy012_releases_observers page0 3 bottomOnly
              [ScrollSignal [2; 0]%nat] [SizeChange 3]
              (ScrollSignal [2; 0]%nat)) as (_ & _ & H1 & _);
    [page0_wellFormed|].
  destruct (destroy012_releases_observers page0 3 bottomOnly
              [ScrollSignal [2; 0]%nat] [SizeChange 3]
              (SizeChange 3)) as (_ & _ & _ & H2);
    [page0_wellFormed|].
  split; [exact H1|exact H2].
Defined.

Lemma invoked_SizeChange_inv pg fn target :
  fn ∈ invoked pg (SizeChange target) ->
  exists o ob, observers pg !! o = Some ob
               /\ ro_callback ob = fn
               /\ target ∈ observationTargets ob.
Proof.
  simpl. intros Hin.
  apply list_elem_of_In, in_map_iff in Hin as ([o ob] & E & Hob).
  apply list_elem_of_In, list_elem_of_filter in Hob as [Ht Hob].
  apply elem_of_map_to_list in Hob. eauto.
Qed.

(** X13. What invokes [update] in v0.1.2. On a well-formed page, after
    [createPopover]: a size change of the anchor invokes the arrow function
    that calls [update], and running it is running [update]; a size change
    of any other element invokes neither of the two, so for an anchor that
    was on the page before, a size change of the panel goes unnoticed; and a
    scroll signal that passes a scroll parent invokes [update]. *)
Theorem v012_observes_the_anchor_only
    (pg : Page) (anchor : nat) (opts : V012Controller.PopoverOptions) :
  wellFormed pg ->
  let c := (V012Controller.createPopover anchor opts pg).1 in
  let created := (V012Controller.createPopover anchor opts pg).2 in
  V012Controller.c_onResize c ∈ invoked created (SizeChange anchor)
  /\ (forall page,
        V012Controller.call c page (V012Controller.c_onResize c)
        = V012Controller.update c page)
  /\ (forall target, target <> anchor ->
        (V012Controller.c_onResize c ∉ invoked created (SizeChange target))
        /\ (V012Controller.c_update c
            ∉ invoked created (SizeChange target)))
  /\ (anchor <> fresh pg ->
      V012Controller.c_onResize c
      ∉ invoked created (SizeChange (V012Controller.element c)))
  /\ (forall t path,
        t ∈ V012Controller.c_scrollParents c -> t ∈ path ->
        V012Controller.c_update c ∈ invoked created (ScrollSignal path)).
Proof.
  intros WF.
  destruct (createPopover012_registry anchor opts pg WF)
    as (Ee & _ & _ & L & _ & O & R).
  cbv zeta.
  set (c := (V012Controller.createPopover anchor opts pg).1) in *.
  set (created := (V012Controller.createPopover anchor opts pg).2) in *.
  clearbody c created.
  assert (N : forall target, target <> anchor ->
            V012Controller.c_onResize c
            ∉ invoked created (SizeChange target)).
  { intros target NE Hin.
    apply invoked_SizeChange_inv in Hin as (o & ob & Hob & E & Ht).
    assert (o = V012Controller.c_ro c) as -> by (now apply (O _ _ Hob)).
    rewrite R in Hob. injection Hob as <-. simpl in Ht.
    apply list_elem_of_singleton in Ht. contradiction. }
  split.
  { apply (invoked_SizeChange created _ _ anchor R). simpl. left. }
  split.
  { intros page. unfold V012Controller.call.
    destruct (decide _); [reflexivity|].
    now rewrite decide_True by reflexivity. }
  split.
  { intros target NE. split; [now apply N|].
    intros Hin.
    apply invoked_SizeChange_inv in Hin as (o & ob & Hob & E & _).
    now apply (O _ _ Hob). }
  split.
  { intros NE. apply N. rewrite Ee. congruence. }
  intros t path Ht Hp.
  apply (invoked_ScrollSignal created t
           (scrollListener (V012Controller.c_update c)));
    [now apply L|reflexivity|exact Hp].
Qed.

(** X13 on [page0]: a size change of the new panel invokes nothing. *)
Lemma v012_observes_the_anchor_only_witness :
  V012Controller.c_onResize controller012
  ∉ invoked page012 (SizeChange (V012Controller.element controller012)).
Proof.
  destruct (v012_observes_the_anchor_only page0 3 bottomOnly)
    as (_ & _ & _ & H & _); [page0_wellFormed|].
  apply H. vm_compute. discriminate.
Defined.

(** [computeBest] reads the anchor's bounding box and the panel's offset
    size, and nothing else of the two elements. *)
Lemma computeBest_reads w a a' p p' placement prefs :
  getBoundingClientRect a' = getBoundingClientRect a ->
  offsetWidth p' = offsetWidth p ->
  offsetHeight p' = offsetHeight p ->
  V012.computeBest w a' p' placement prefs
  = V012.computeBest w a p placement prefs.
Proof.
  intros Hr Hw Hh.
  unfold V012.computeBest, V012.finalScores. rewrite Hw, Hh.
  assert (E : forall size,
            V012.computeScores w a' size prefs
            = V012.computeScores w a size prefs).
  { intros size. unfold V012.computeScores, V012.candidates.
    assert (C : forall s, V012.candidate w a' size prefs s
                          = V012.candidate w a size prefs s).
    { intros s. unfold V012.candidate. now rewrite Hr. }
    now rewrite (map_ext _ _ C). }
  now rewrite E.
Qed.

Lemma update012_after_setPlacementVar
    (c : V012Controller.PopoverController) (pg : Page) (s : Placement) :
  is_Some (elements pg !! V012Controller.c_anchor c) ->
  is_Some (elements pg !! V012Controller.element c) ->
  V012Controller.update c
    (V012Controller.setPlacementVar (V012Controller.element c) s pg)
  = V012Controller.update c pg.
Proof.
  intros [a Ea] [p Ep].
  unfold V012Controller.update, V012Controller.setPlacementVar. simpl.
  rewrite (lookup_alter_eq _ _ (V012Controller.element c)), Ep, Ea. simpl.
  assert (exists a', alter (V020.withPlacement s) (V012Controller.element c)
                       (elements pg) !! V012Controller.c_anchor c = Some a'
                     /\ getBoundingClientRect a' = getBoundingClientRect a)
    as (a' & -> & Ha).
  { rewrite lookup_alter. destruct (decide _) as [E|NE].
    - rewrite Ep. exists (V020.withPlacement s p). split; [reflexivity|].
      rewrite E in Ep. simpl. congruence.
    - exists a. split; [exact Ea|reflexivity]. }
  rewrite (computeBest_reads _ a a' p (V020.withPlacement s p))
    by (try reflexivity; exact Ha).
  destruct (V012.computeBest _ _ _ _ _) as [best|] eqn:F.
  - unfold V012Controller.setPlacementVar, set_elements. simpl. f_equal.
    rewrite alter_alter_eq. apply alter_ext. reflexivity.
  - destruct (computeBest_total (window pg) a p
                (V012Controller.c_placement c)
                (V012Controller.c_preference c)) as (x & Hx).
    congruence.
Qed.

(** X14. Re-evaluation in v0.1.2 is idempotent and has no memory either: a
    second [update()] leaves the page as the first one left it, and for a
    controller whose anchor and panel are elements of the page, the Side
    written is [computeBest] of the current geometry, whatever Side the
    panel carried before. *)
Theorem update012_idempotent
    (c : V012Controller.PopoverController) (pg : Page) :
  V012Controller.update c (V012Controller.update c pg)
  = V012Controller.update c pg
  /\ (forall a p,
        elements pg !! V012Controller.c_anchor c = Some a ->
        elements pg !! V012Controller.element c = Some p ->
        data_placement
          <$> elements (V012Controller.update c pg)
              !! V012Controller.element c
        = Some (V012.computeBest (window pg) a p
                  (V012Controller.c_placement c)
                  (V012Controller.c_preference c)))
  /\ (is_Some (elements pg !! V012Controller.c_anchor c) ->
      is_Some (elements pg !! V012Controller.element c) ->
      forall s,
        V012Controller.update c
          (V012Controller.setPlacementVar (V012Controller.element c) s pg)
        = V012Controller.update c pg).
Proof.
  split; [|split].
  - destruct (elements pg !! V012Controller.c_anchor c) as [a|] eqn:Ea.
    + destruct (elements pg !! V012Controller.element c) as [p|] eqn:Ep.
      * assert (E : exists best,
                  V012Controller.update c pg
                  = V012Controller.setPlacementVar
                      (V012Controller.element c) best pg).
        { unfold V012Controller.update. rewrite Ea, Ep.
          destruct (computeBest_total (window pg) a p
                      (V012Controller.c_placement c)
                      (V012Controller.c_preference c)) as (x & ->).
          eauto. }
        destruct E as (best & E). rewrite E at 1.
        apply update012_after_setPlacementVar; eauto.
      * assert (E : V012Controller.update c pg = pg)
          by (unfold V012Controller.update; now rewrite Ea, Ep).
        now rewrite !E.
    + assert (E : V012Controller.update c pg = pg)
        by (unfold V012Controller.update; now rewrite Ea).
      now rewrite !E.
  - intros a p Ea Ep. unfold V012Controller.update. rewrite Ea, Ep.
    destruct (computeBest_total (window pg) a p
                (V012Controller.c_placement c)
                (V012Controller.c_preference c)) as (x & ->).
    unfold V012Controller.setPlacementVar. simpl.
    now rewrite lookup_alter_eq, Ep.
  - intros Ha Hp s. now apply update012_after_setPlacementVar.
Qed.

(** X14 on the page that [createPopover] of v0.1.2 leaves: after top has
    been written to the panel, [update()] gives the same page again. *)
Lemma update012_idempotent_witness :
  V012Controller.update controller012
    (V012Controller.setPlacementVar
       (V012Controller.element controller012) Top page012)
  = V012Controller.update controller012 page012.
Proof.
  destruct (update012_idempotent controller012 page012) as (_ & _ & H).
  apply H; eexists; vm_compute; reflexivity.
Defined.

(** ** Bursts of signals *)

Lemma update_twice (c : V020.PopoverController) (pg : Page) :
  V020.update c (V020.update c pg) = V020.update c pg.
Proof.
  destruct (elements pg !! V020.c_anchor c) as [a|] eqn:Ea.
  - destruct (elements pg !! V020.element c) as [p|] eqn:Ep.
    + assert (E : exists best,
                V020.update c pg
                = V020.setPlacement (V020.element c) best pg).
      { unfold V020.update. rewrite Ea, Ep.
        destruct (findBestPlacement_total (window pg) a p
                    (V020.c_placement c) (V020.c_fallbacks c))
          as (x & ->). eauto. }
      destruct E as (best & E). rewrite E at 1.
      apply update_after_setPlacement; eauto.
    + assert (E : V020.update c pg = pg)
        by (unfold V020.update; now rewrite Ea, Ep).
      now rewrite !E.
  - assert (E : V020.update c pg = pg)
      by (unfold V020.update; now rewrite Ea).
    now rewrite !E.
Qed.

Lemma calls_after_update c fns : forall pg,
  fold_left (V020.call c) fns (V020.update c pg) = V020.update c pg.
Proof.
  induction fns as [|fn fns IH]; intros pg; simpl; [reflexivity|].
  unfold V020.call at 2. destruct (decide _); [|apply IH].
  rewrite update_twice. apply IH.
Qed.

(** X15. However often one signal invokes [update], the outcome is that
    of a single [update()]: a scroll that passes several scroll parents
    recomputes the placement once per parent and leaves the page as one
    recomputation leaves it; and a signal that does not invoke [update]
    leaves the page alone. *)
Theorem signal_is_one_update
    (c : V020.PopoverController) (pg : Page) (sig : Signal) :
  (V020.c_update c ∈ invoked pg sig ->
   V020.signal c pg sig = V020.update c pg)
  /\ (V020.c_update c ∉ invoked pg sig -> V020.signal c pg sig = pg).
Proof.
  unfold V020.signal. generalize (invoked pg sig) as fns.
  induction fns as [|fn fns [IH1 IH2]]; simpl.
  - split; [intros H; inversion H|reflexivity].
  - unfold V020.call at 2 4. destruct (decide (fn = V020.c_update c)) as [E|NE].
    + split; [intros _; apply calls_after_update|].
      intros H. exfalso. apply H. rewrite E. left.
    + split.
      * intros H. apply elem_of_cons in H as [H|H]; [congruence|].
        now apply IH1.
      * intros H. apply IH2. intros H'. apply H. now right.
Qed.

(** X15 on the page that [createPopover] leaves: a scroll through the
    container and the document invokes [update] twice, among other
    callbacks, and leaves what one [update()] leaves. *)
Lemma signal_is_one_update_witness :
  invoked page1 (ScrollSignal [2; 0]%nat)
  = [4; V020.c_update controller0; V020.c_update controller0]%nat
  /\ V020.signal controller0 page1 (ScrollSignal [2; 0]%nat)
     = V020.update controller0 page1.
Proof.
  assert (E : invoked page1 (ScrollSignal [2; 0]%nat)
              = [4; V020.c_update controller0;
                 V020.c_update controller0]%nat)
    by (vm_compute; reflexivity).
  split; [exact E|].
  destruct (signal_is_one_update controller0 page1
              (ScrollSignal [2; 0]%nat)) as [H _].
  apply H. rewrite E. right. left.
Defined.
